(** * open-in-github: remote link resolution

    A shallow embedding of the resolution and construction logic of
    [extension.js] (the last revision in the file, the one that discovers the
    repository URL from the git remotes), and the properties the
    specification states about it.

    Strings.  A JavaScript string is modelled by a Rocq [string]; each
    character stands for one UTF-16 code unit in the range 0..255.

    Effects.  Every git query of the extension goes through
    [execAsync(command, {cwd})].  The shell is an oracle from the command line
    and the working directory to the standard output of the command, or to a
    failure, and answers a command the same way each time within one run; the
    monad [Git] collects the commands that were run and carries JavaScript
    exceptions.

    Host.  [path.relative] belongs to the host; [getRelativePath] takes it as
    a parameter, and [Path] gives the one of a POSIX host. *)

From Stdlib Require Import Bool Arith Lia List Ascii String NArith DecimalString.
Import ListNotations.

Local Open Scope string_scope.
Local Open Scope nat_scope.

(* ================================================================== *)
(** * JavaScript strings *)
(* ================================================================== *)

Module JSString.

(** Code units that [String.prototype.trim] strips and that [\s] matches:
    TAB, LF, VT, FF, CR, SPACE and NO-BREAK SPACE (the white space and line
    terminators below 256). *)
Definition is_js_space (a : ascii) : bool :=
  let n := nat_of_ascii a in
  ((9 <=? n) && (n <=? 13)) || (n =? 32) || (n =? 160).

Definition is_digit (a : ascii) : bool :=
  let n := nat_of_ascii a in (48 <=? n) && (n <=? 57).

(** ASCII upper-casing: the canonicalisation a regular expression with the
    [i] flag applies to the letters a..z. *)
Definition upper (a : ascii) : ascii :=
  let n := nat_of_ascii a in
  if (97 <=? n) && (n <=? 122) then ascii_of_nat (n - 32) else a.

(** [if (s)] on a string: the empty string is falsy. *)
Definition truthy (s : string) : bool :=
  match s with EmptyString => false | String _ _ => true end.

Fixpoint trimStart (s : string) : string :=
  match s with
  | EmptyString => EmptyString
  | String a s' => if is_js_space a then trimStart s' else s
  end.

Fixpoint trimEnd (s : string) : string :=
  match s with
  | EmptyString => EmptyString
  | String a s' =>
      match trimEnd s' with
      | EmptyString => if is_js_space a then EmptyString else String a EmptyString
      | t => String a t
      end
  end.

(** [s.trim()] *)
Definition trim (s : string) : string := trimEnd (trimStart s).

(** [s.split(sep)] for a one-character separator. *)
Fixpoint split (sep : ascii) (s : string) : list string :=
  match s with
  | EmptyString => [EmptyString]
  | String a s' =>
      if Ascii.eqb a sep then EmptyString :: split sep s'
      else match split sep s' with
           | [] => [String a EmptyString]
           | w :: ws => String a w :: ws
           end
  end.

(** [xs.join(sep)] *)
Fixpoint join (sep : string) (xs : list string) : string :=
  match xs with
  | [] => EmptyString
  | [x] => x
  | x :: xs' => x ++ sep ++ join sep xs'
  end.

(** [s.replace(/c/g, d)] for single characters [c] and [d]. *)
Fixpoint replaceAll (c d : ascii) (s : string) : string :=
  match s with
  | EmptyString => EmptyString
  | String a s' => String (if Ascii.eqb a c then d else a) (replaceAll c d s')
  end.

(** [s.includes(c)] for one character. *)
Fixpoint has_char (c : ascii) (s : string) : bool :=
  match s with
  | EmptyString => false
  | String a s' => Ascii.eqb a c || has_char c s'
  end.

(** [s.startsWith(p)] and [s.endsWith(p)] *)
Fixpoint startsWith (p s : string) : bool :=
  match p, s with
  | EmptyString, _ => true
  | String a p', String b s' => Ascii.eqb a b && startsWith p' s'
  | String _ _, EmptyString => false
  end.

Fixpoint endsWith (p s : string) : bool :=
  String.eqb s p ||
  match s with
  | EmptyString => false
  | String _ s' => endsWith p s'
  end.

End JSString.

Import JSString.

(* ================================================================== *)
(** * Regular expressions *)
(* ================================================================== *)

(** A backtracking matcher in continuation-passing style, the way ECMAScript
    defines [RegExp] matching: alternatives are tried left to right, a greedy
    quantifier tries one more iteration before it tries the rest of the
    pattern and a lazy one the other way round, and the first success is the
    result. *)

Module Regex.

Inductive regex : Type :=
| Empty                                  (* the empty pattern *)
| Class (p : ascii -> bool)              (* a character or a character class *)
| Seq (r1 r2 : regex)                    (* r1 r2 *)
| Alt (r1 r2 : regex)                    (* r1 | r2 *)
| Star (greedy : bool) (r : regex)       (* r* and r*? *)
| Group (i : nat) (r : regex)            (* the i-th capturing group *)
| AssertEnd.                             (* $ without the m flag *)

(** Captured groups, the latest first. *)
Definition captures := list (nat * string).

Fixpoint capture (i : nat) (m : captures) : option string :=
  match m with
  | [] => None
  | (j, w) :: m' => if j =? i then Some w else capture i m'
  end.

Definition Cont := string -> captures -> option captures.
Definition Matcher := string -> captures -> Cont -> option captures.

(** Iterations of a quantified pattern.  An iteration that consumes nothing
    is rejected, as in ECMAScript, so every iteration shortens the input and
    [fuel], one more than the length of the input, is never used up. *)
Fixpoint star_loop (greedy : bool) (body : Matcher) (k : Cont)
    (fuel : nat) (s : string) (c : captures) : option captures :=
  match fuel with
  | O => None
  | S fuel' =>
      let again (_ : unit) :=
        body s c (fun s' c' =>
          if String.length s' <? String.length s
          then star_loop greedy body k fuel' s' c'
          else None) in
      if greedy then
        match again tt with Some m => Some m | None => k s c end
      else
        match k s c with Some m => Some m | None => again tt end
  end.

Fixpoint rmatch (r : regex) (s : string) (c : captures) (k : Cont)
    {struct r} : option captures :=
  match r with
  | Empty => k s c
  | Class p =>
      match s with
      | String a s' => if p a then k s' c else None
      | EmptyString => None
      end
  | Seq r1 r2 => rmatch r1 s c (fun s' c' => rmatch r2 s' c' k)
  | Alt r1 r2 =>
      match rmatch r1 s c k with
      | Some m => Some m
      | None => rmatch r2 s c k
      end
  | Star g r1 => star_loop g (rmatch r1) k (S (String.length s)) s c
  | Group i r1 =>
      rmatch r1 s c (fun s' c' =>
        k s' ((i, substring 0 (String.length s - String.length s') s) :: c'))
  | AssertEnd =>
      match s with
      | EmptyString => k s c
      | String _ _ => None
      end
  end.

Definition accept : Cont := fun _ c => Some c.

(** [s.match(r)] for a pattern without the [g] flag: the match at the
    leftmost position where there is one. *)
Fixpoint search (r : regex) (s : string) : option captures :=
  match rmatch r s [] accept with
  | Some m => Some m
  | None =>
      match s with
      | EmptyString => None
      | String _ s' => search r s'
      end
  end.

(** [r.test(s)] *)
Definition test (r : regex) (s : string) : bool :=
  match search r s with Some _ => true | None => false end.

(** r+ and r+?, r? *)
Definition Plus (greedy : bool) (r : regex) : regex := Seq r (Star greedy r).
Definition Opt (r : regex) : regex := Alt r Empty.

Definition chr (a : ascii) : regex := Class (Ascii.eqb a).
Definition chr_i (a : ascii) : regex := Class (fun x => Ascii.eqb (upper a) (upper x)).

(** A literal word, case-insensitive under the [i] flag. *)
Fixpoint Lit (ci : bool) (w : string) : regex :=
  match w with
  | EmptyString => Empty
  | String a w' => Seq (if ci then chr_i a else chr a) (Lit ci w')
  end.

End Regex.

Import Regex.

(* ================================================================== *)
(** * The patterns of extension.js *)
(* ================================================================== *)

Definition not_slash (a : ascii) : bool := negb (Ascii.eqb a "/").
Definition colon_or_slash (a : ascii) : bool := Ascii.eqb a ":" || Ascii.eqb a "/".
Definition space_or_colon (a : ascii) : bool := is_js_space a || Ascii.eqb a ":".

(** [/github\.com/] *)
Definition re_github : regex := Lit false "github.com".

(** [(?:\.git)?\/?$] *)
Definition re_tail : regex :=
  Seq (Opt (Lit false ".git")) (Seq (Opt (chr "/")) AssertEnd).

(** [([^/]+)\/([^/]+?)(?:\.git)?\/?$] *)
Definition re_org_repo : regex :=
  Seq (Group 1 (Plus true (Class not_slash)))
    (Seq (chr "/")
      (Seq (Group 2 (Plus false (Class not_slash))) re_tail)).

(** [/github\.com[:/]([^/]+)\/([^/]+?)(?:\.git)?\/?$/] *)
Definition re_repository : regex :=
  Seq (Lit false "github.com") (Seq (Class colon_or_slash) re_org_repo).

(** [#(\d+)] *)
Definition re_number (ci : bool) : regex :=
  Seq (Lit ci "#") (Group 1 (Plus true (Class is_digit))).

(** [/Merge pull request #(\d+)/i] *)
Definition re_merge : regex :=
  Seq (Lit true "Merge pull request ") (re_number true).

(** [(?:fixes?|closes?|resolves?|refs?)] under the [i] flag *)
Definition re_keyword : regex :=
  Alt (Seq (Lit true "fixe") (Opt (chr_i "s")))
    (Alt (Seq (Lit true "close") (Opt (chr_i "s")))
      (Alt (Seq (Lit true "resolve") (Opt (chr_i "s")))
           (Seq (Lit true "ref") (Opt (chr_i "s"))))).

(** [/(?:fixes?|closes?|resolves?|refs?)[\s:]*#(\d+)/i] *)
Definition re_closing : regex :=
  Seq re_keyword (Seq (Star true (Class space_or_colon)) (re_number true)).

(** [/#(\d+)/] *)
Definition re_bare : regex := re_number false.

(* ================================================================== *)
(** * Node's path module *)
(* ================================================================== *)

(** [path.relative] of a POSIX host, on the segments of the resolved paths:
    [resolve] makes a path absolute against the working directory of the
    process and drops empty segments, [.] and [..]; [relative] climbs out of
    what is left of [from] after the common prefix and descends into what is
    left of [to]. *)

Module Path.

Fixpoint normalize (stack : list string) (segs : list string) : list string :=
  match segs with
  | [] => rev stack
  | seg :: segs' =>
      if String.eqb seg "" || String.eqb seg "." then normalize stack segs'
      else if String.eqb seg ".." then normalize (tl stack) segs'
      else normalize (seg :: stack) segs'
  end.

Definition resolve (cwd p : string) : list string :=
  normalize [] (split "/" (if startsWith "/" p then p else cwd ++ "/" ++ p)).

Fixpoint drop_common (xs ys : list string) : list string * list string :=
  match xs, ys with
  | x :: xs', y :: ys' => if String.eqb x y then drop_common xs' ys' else (xs, ys)
  | _, _ => (xs, ys)
  end.

Definition relative (cwd from to : string) : string :=
  let (up, down) := drop_common (resolve cwd from) (resolve cwd to) in
  join "/" (map (fun _ => "..") up ++ down)%list.

End Path.

(* ================================================================== *)
(** * Git queries *)
(* ================================================================== *)

Module Git.

(** One call of [execAsync(command, { cwd })]. *)
Record Exec : Type := { command : string; cwd : string }.

(** The shell: standard output of a command run in a directory, or failure. *)
Definition Shell := string -> string -> option string.

Inductive exn : Type :=
| ExecError (e : Exec)          (* the rejection of execAsync *)
| Error (message : string).     (* new Error(message) *)

Inductive outcome (A : Type) : Type :=
| Return (a : A)
| Throw (e : exn).
Arguments Return {A} a.
Arguments Throw {A} e.

Definition Git (A : Type) : Type := Shell -> outcome A * list Exec.

Definition ret {A} (a : A) : Git A := fun _ => (Return a, []).
Definition throw {A} (e : exn) : Git A := fun _ => (Throw e, []).

(** The queries of [k] come after the queries of the step before it. *)
Definition after {A} (log : list Exec) (p : outcome A * list Exec)
    : outcome A * list Exec :=
  (fst p, (log ++ snd p)%list).

Definition bind {A B} (m : Git A) (f : A -> Git B) : Git B :=
  fun sh =>
    match m sh with
    | (Return a, log) => after log (f a sh)
    | (Throw e, log) => (Throw e, log)
    end.

(** [try { m } catch (error) { h error }] *)
Definition try_catch {A} (m : Git A) (h : exn -> Git A) : Git A :=
  fun sh =>
    match m sh with
    | (Return a, log) => (Return a, log)
    | (Throw e, log) => after log (h e sh)
    end.

(** [const { stdout } = await execAsync(command, { cwd })] *)
Definition execAsync (command cwd : string) : Git string :=
  fun sh =>
    let e := {| command := command; cwd := cwd |} in
    match sh command cwd with
    | Some stdout => (Return stdout, [e])
    | None => (Throw (ExecError e), [e])
    end.

(** The result of a command of the extension and the command lines it ran,
    in order. *)
Definition result {A} (m : Git A) (sh : Shell) : outcome A := fst (m sh).
Definition queries {A} (m : Git A) (sh : Shell) : list string :=
  map command (snd (m sh)).

End Git.

Import Git.

Notation "x <- m ;; k" := (bind m (fun x => k))
  (at level 61, m at next level, right associativity).

(* ================================================================== *)
(** * extension.js *)
(* ================================================================== *)

(** [getGitRef(gitRoot, useCommitHash)].  The inner [try] either returns the
    branch from the function ([Some branch]) or falls out of the block. *)
Definition getGitRef (gitRoot : string) (useCommitHash : bool) : Git string :=
  try_catch
    (if useCommitHash then
       stdout <- execAsync "git rev-parse HEAD" gitRoot ;;
       ret (trim stdout)
     else
       returned <- try_catch
         (stdout <- execAsync "git branch --show-current" gitRoot ;;
          let branch := trim stdout in
          if truthy branch then ret (Some branch) else ret None)
         (fun _ => ret None) ;;
       match returned with
       | Some branch => ret branch
       | None =>
           stdout <- execAsync "git rev-parse HEAD" gitRoot ;;
           ret (trim stdout)
       end)
    (fun _ => throw (Error "Failed to get git reference")).

(** [getRelativePath(filePath, gitRoot)]; [path_relative] is [path.relative]
    of the host. *)
Definition getRelativePath (path_relative : string -> string -> string)
    (filePath gitRoot : string) : string :=
  replaceAll "\" "/" (path_relative gitRoot filePath).

(** [`${n}`] for a number that is a non-negative integer (a line number). *)
Definition Number_toString (n : N) : string :=
  NilZero.string_of_uint (N.to_uint n).

(** [constructGitHubUrl(repositoryUrl, gitRef, relativePath, lineNumber)];
    [None] is [null], and [if (lineNumber)] is false for [null] and for 0. *)
Definition constructGitHubUrl (repositoryUrl gitRef relativePath : string)
    (lineNumber : option N) : string :=
  let url := repositoryUrl ++ "/blob/" ++ gitRef ++ "/" ++ relativePath in
  match lineNumber with
  | Some n => if (n =? 0)%N then url else url ++ "#L" ++ Number_toString n
  | None => url
  end.

(** [getRemoteUrl(gitRoot, remoteName)] *)
Definition getRemoteUrl (gitRoot remoteName : string) : Git (option string) :=
  try_catch
    (stdout <- execAsync ("git remote get-url " ++ remoteName) gitRoot ;;
     ret (Some (trim stdout)))
    (fun _ => ret None).

(** [getAllRemotes(gitRoot)] *)
Definition getAllRemotes (gitRoot : string) : Git (list string) :=
  try_catch
    (stdout <- execAsync "git remote" gitRoot ;;
     ret (filter (fun name => 0 <? String.length name) (split "010" (trim stdout))))
    (fun _ => ret []).

(** [isGitHubUrl(url)] *)
Definition isGitHubUrl (url : string) : bool :=
  if negb (truthy url) then false else test re_github url.

(** The template literal [`${x}`] of a captured group. *)
Definition group (i : nat) (m : captures) : string :=
  match capture i m with Some w => w | None => "undefined" end.

(** [normalizeGitHubUrl(url)] *)
Definition normalizeGitHubUrl (url : string) : option string :=
  if negb (truthy url) then None
  else
    match search re_repository url with
    | Some m => Some ("https://github.com/" ++ group 1 m ++ "/" ++ group 2 m)
    | None => None
    end.

(** The block that steps 2, 3 and 4 of [getGitHubRepositoryUrl] apply to the
    URL of a remote: [Some normalized] when the function returns there. *)
Definition githubRemote (remoteUrl : option string) : option string :=
  match remoteUrl with
  | Some url =>
      if truthy url && isGitHubUrl url then
        match normalizeGitHubUrl url with
        | Some normalized => if truthy normalized then Some normalized else None
        | None => None
        end
      else None
  | None => None
  end.

(** [for (const remote of allRemotes) { ... }] and the final [return null]. *)
Fixpoint firstGitHubRemote (gitRoot : string) (allRemotes : list string)
    : Git (option string) :=
  match allRemotes with
  | [] => ret None
  | remote :: rest =>
      remoteUrl <- getRemoteUrl gitRoot remote ;;
      match githubRemote remoteUrl with
      | Some normalized => ret (Some normalized)
      | None => firstGitHubRemote gitRoot rest
      end
  end.

(** Steps 2 to 5 of [getGitHubRepositoryUrl]. *)
Definition fromRemotes (gitRoot : string) : Git (option string) :=
  upstreamUrl <- getRemoteUrl gitRoot "upstream" ;;
  match githubRemote upstreamUrl with
  | Some normalized => ret (Some normalized)
  | None =>
      originUrl <- getRemoteUrl gitRoot "origin" ;;
      match githubRemote originUrl with
      | Some normalized => ret (Some normalized)
      | None =>
          allRemotes <- getAllRemotes gitRoot ;;
          firstGitHubRemote gitRoot allRemotes
      end
  end.

(** [if (v)] on the value of a string setting: [undefined] and the empty
    string are falsy. *)
Definition truthy_value (v : option string) : bool :=
  match v with
  | Some s => truthy s
  | None => false
  end.

(** [getGitHubRepositoryUrl(gitRoot, config)]; [config key] is
    [config.get(key)] of a string setting, [None] when it is undefined. *)
Definition getGitHubRepositoryUrl (gitRoot : string)
    (config : string -> option string) : Git (option string) :=
  let configUrl := config "repositoryUrl" in
  if truthy_value configUrl then ret configUrl else fromRemotes gitRoot.

(** [getPRNumberFromCommit(gitRoot, commitHash)] *)
Definition getPRNumberFromCommit (gitRoot commitHash : string)
    : Git (option string) :=
  try_catch
    (commitMessage <- execAsync ("git log -1 --format=%B " ++ commitHash) gitRoot ;;
     match search re_merge commitMessage with
     | Some m => ret (capture 1 m)
     | None =>
         match search re_closing commitMessage with
         | Some m => ret (capture 1 m)
         | None =>
             match search re_bare commitMessage with
             | Some m => ret (capture 1 m)
             | None => ret None
             end
         end
     end)
    (fun _ => ret None).

(** [getGitRoot(filePath)]; [path_dirname] is [path.dirname] of the host. *)
Definition getGitRoot (path_dirname : string -> string) (filePath : string)
    : Git (option string) :=
  try_catch
    (stdout <- execAsync "git rev-parse --show-toplevel" (path_dirname filePath) ;;
     ret (Some (trim stdout)))
    (fun _ => ret None).

(** [r{n}] *)
Fixpoint Times (n : nat) (r : regex) : regex :=
  match n with
  | O => Empty
  | S n' => Seq r (Times n' r)
  end.

(** [[a-f0-9]] *)
Definition is_hex (a : ascii) : bool :=
  let n := nat_of_ascii a in
  is_digit a || ((97 <=? n) && (n <=? 102)).

(** [([a-f0-9]{40})], the pattern of [/^([a-f0-9]{40})/] after the anchor. *)
Definition re_hash : regex := Group 1 (Times 40 (Class is_hex)).

(** [s.match(/^r/)]: without the [m] flag the anchor holds at the start of
    the input only, so the one position where the pattern can match is the
    first. *)
Definition match_start (r : regex) (s : string) : option captures :=
  rmatch r s [] accept.

(** The double quote. *)
Definition dquote : string := String "034" "".

(** [getCommitHashFromBlame(gitRoot, filePath, lineNumber)].  [split] gives
    at least one line, so [lines.length > 0] holds and the empty case is the
    [return null] after the block. *)
Definition getCommitHashFromBlame (path_relative : string -> string -> string)
    (gitRoot filePath : string) (lineNumber : N) : Git (option string) :=
  try_catch
    (let relativePath := getRelativePath path_relative filePath gitRoot in
     stdout <- execAsync
       ("git blame -L " ++ Number_toString lineNumber ++ ","
          ++ Number_toString lineNumber ++ " --porcelain "
          ++ dquote ++ relativePath ++ dquote)
       gitRoot ;;
     let lines := split "010" stdout in
     match lines with
     | line :: _ =>
         match match_start re_hash line with
         | Some m => ret (capture 1 m)
         | None => ret None
         end
     | [] => ret None
     end)
    (fun _ => ret None).

(** The object [{ org: match[1], repo: match[2] }]. *)
Record OrgRepo : Type := { org : option string; repo : option string }.

(** [extractOrgAndRepo(repositoryUrl)] *)
Definition extractOrgAndRepo (repositoryUrl : string) : option OrgRepo :=
  match search re_repository repositoryUrl with
  | Some m => Some {| org := capture 1 m; repo := capture 2 m |}
  | None => None
  end.

(** The template literal [`${v}`] of a value that is a string or
    [undefined]. *)
Definition template (v : option string) : string :=
  match v with
  | Some w => w
  | None => "undefined"
  end.

(* ================================================================== *)
(** * The commands *)
(* ================================================================== *)

(** What a command reads from the editor host: the active editor (the path
    of its document and the zero-based line of the cursor), the settings
    under [openInGithub], the [path] module, and the [open] package, which
    opens a URL or rejects with an error message.  [exec_message] is the
    message of the error a failed [execAsync] rejects with. *)
Record Editor : Type := { fsPath : string; line : N }.

Record Host : Type := {
  activeTextEditor : option Editor;
  settings : string -> option string;
  flags : string -> option bool;
  path_dirname : string -> string;
  path_relative : string -> string -> string;
  open : string -> option string;
  exec_message : Exec -> string
}.

(** [config.get(key, defaultValue)] of a boolean setting. *)
Definition get_flag (host : Host) (key : string) (defaultValue : bool) : bool :=
  match flags host key with
  | Some b => b
  | None => defaultValue
  end.

(** What the user sees of a command. *)
Inductive ui : Type :=
| Opened (url : string)                  (* the browser opened the URL *)
| ErrorMessage (text : string)           (* vscode.window.showErrorMessage *)
| InformationMessage (text : string).    (* vscode.window.showInformationMessage *)

(** [showError(message)] *)
Definition showError (message : string) : ui :=
  ErrorMessage ("Open in GitHub: " ++ message).

(** [await openInBrowser(url)] *)
Definition openInBrowser (host : Host) (url : string) : Git ui :=
  match open host url with
  | None => ret (Opened url)
  | Some message => throw (Error message)
  end.

(** [error.message] *)
Definition message_of (host : Host) (e : exn) : string :=
  match e with
  | Error message => message
  | ExecError e => exec_message host e
  end.

(** The [try { ... } catch (error) { showError(error.message); }] around the
    body of a command. *)
Definition command_body (host : Host) (body : Git (list ui)) : Git (list ui) :=
  try_catch body (fun error => ret [showError (message_of host error)]).

(** [if (!v) { ... return; }] on a value that is a string or [null]: the
    value when it passes the test. *)
Definition present (v : option string) : option string :=
  match v with
  | Some s => if truthy s then Some s else None
  | None => None
  end.

(** [openFileInGitHub(includeLineNumber)] *)
Definition openFileInGitHub (host : Host) (includeLineNumber : bool)
    : Git (list ui) :=
  command_body host
    match activeTextEditor host with
    | None => ret [showError "No active editor found"]
    | Some editor =>
        let filePath := fsPath editor in
        let config := settings host in
        let useCommitHash := get_flag host "useCommitHash" false in
        gitRoot <- getGitRoot (path_dirname host) filePath ;;
        match present gitRoot with
        | None => ret [showError "File is not in a git repository"]
        | Some gitRoot =>
            repositoryUrl <- getGitHubRepositoryUrl gitRoot config ;;
            match present repositoryUrl with
            | None =>
                ret [showError "Could not determine GitHub repository URL. Please configure openInGithub.repositoryUrl or ensure a GitHub remote exists."]
            | Some repositoryUrl =>
                gitRef <- getGitRef gitRoot useCommitHash ;;
                let relativePath :=
                  getRelativePath (path_relative host) filePath gitRoot in
                let lineNumber :=
                  if includeLineNumber then Some (line editor + 1)%N else None in
                let url :=
                  constructGitHubUrl repositoryUrl gitRef relativePath lineNumber in
                opened <- openInBrowser host url ;;
                ret [opened;
                     InformationMessage ("Opened in GitHub: " ++ relativePath)]
            end
        end
    end.

(** [openRepositoryInGitHub()] *)
Definition openRepositoryInGitHub (host : Host) : Git (list ui) :=
  command_body host
    match activeTextEditor host with
    | None => ret [showError "No active editor found"]
    | Some editor =>
        let filePath := fsPath editor in
        let config := settings host in
        gitRoot <- getGitRoot (path_dirname host) filePath ;;
        match present gitRoot with
        | None => ret [showError "File is not in a git repository"]
        | Some gitRoot =>
            repositoryUrl <- getGitHubRepositoryUrl gitRoot config ;;
            match present repositoryUrl with
            | None =>
                ret [showError "Could not determine GitHub repository URL. Please configure openInGithub.repositoryUrl or ensure a GitHub remote exists."]
            | Some repositoryUrl =>
                let useCommitHash := get_flag host "useCommitHash" false in
                gitRef <- getGitRef gitRoot useCommitHash ;;
                let url := repositoryUrl ++ "/tree/" ++ gitRef in
                opened <- openInBrowser host url ;;
                ret [opened; InformationMessage "Opened repository in GitHub"]
            end
        end
    end.

(** [openPRForLastChangedLine()] *)
Definition openPRForLastChangedLine (host : Host) : Git (list ui) :=
  command_body host
    match activeTextEditor host with
    | None => ret [showError "No active editor found"]
    | Some editor =>
        let filePath := fsPath editor in
        let config := settings host in
        gitRoot <- getGitRoot (path_dirname host) filePath ;;
        match present gitRoot with
        | None => ret [showError "File is not in a git repository"]
        | Some gitRoot =>
            repositoryUrl <- getGitHubRepositoryUrl gitRoot config ;;
            match present repositoryUrl with
            | None =>
                ret [showError "Could not determine GitHub repository URL. Please configure openInGithub.repositoryUrl or ensure a GitHub remote exists."]
            | Some repositoryUrl =>
                let lineNumber := (line editor + 1)%N in
                commitHash <- getCommitHashFromBlame (path_relative host)
                                gitRoot filePath lineNumber ;;
                match present commitHash with
                | None => ret [showError "Could not determine commit for this line"]
                | Some commitHash =>
                    prNumber <- getPRNumberFromCommit gitRoot commitHash ;;
                    match present prNumber with
                    | None =>
                        ret [showError "Could not find PR number in commit message"]
                    | Some prNumber =>
                        match extractOrgAndRepo repositoryUrl with
                        | None => ret [showError "Invalid repository URL format"]
                        | Some orgRepo =>
                            let prUrl :=
                              "https://github.com/" ++ template (org orgRepo)
                                ++ "/" ++ template (repo orgRepo)
                                ++ "/pull/" ++ prNumber in
                            opened <- openInBrowser host prUrl ;;
                            ret [opened;
                                 InformationMessage
                                   ("Opened PR #" ++ prNumber ++ " in GitHub")]
                        end
                    end
                end
            end
        end
    end.

(* ================================================================== *)
(** * Properties *)
(* ================================================================== *)

(** Integers that a JavaScript number holds exactly and prints in plain
    decimal notation. *)
Definition safe_integer (n : N) : Prop := (n < 2 ^ 53)%N.

(** The numbers of JavaScript as [constructGitHubUrl] tells them apart:
    NaN; a non-negative integer, 0 standing for both zeros; and every other
    number (a negative number, a fraction, an infinity), given by its text
    in a template literal.  [if (n)] is false for NaN and for 0 only. *)
Module JSNumber.

Inductive number : Type :=
| NaN
| Integer (n : N)
| Other (text : string).

(** [if (n)] *)
Definition ToBoolean (n : number) : bool :=
  match n with
  | NaN => false
  | Integer k => negb (k =? 0)%N
  | Other _ => true
  end.

(** [`${n}`] *)
Definition ToString (n : number) : string :=
  match n with
  | NaN => "NaN"
  | Integer k => Number_toString k
  | Other text => text
  end.

(** The integers among them are the ones a number holds exactly. *)
Definition safe (n : number) : Prop :=
  match n with
  | Integer k => safe_integer k
  | _ => True
  end.

(** [constructGitHubUrl(repositoryUrl, gitRef, relativePath, lineNumber)]
    for [null] and for every number, not only the line numbers of an
    editor. *)
Definition constructGitHubUrl (repositoryUrl gitRef relativePath : string)
    (lineNumber : option number) : string :=
  let url := repositoryUrl ++ "/blob/" ++ gitRef ++ "/" ++ relativePath in
  match lineNumber with
  | Some n => if ToBoolean n then url ++ "#L" ++ ToString n else url
  | None => url
  end.

End JSNumber.

(** A repository whose remotes are the ones of the examples of the
    specification: [upstream] and [origin] both on github.com. *)
Definition example_shell : Shell := fun command _ =>
  if String.eqb command "git remote get-url upstream"
  then Some "https://github.com/acme/upstream-repo
"
  else if String.eqb command "git remote get-url origin"
  then Some "https://github.com/acme/fork
"
  else if String.eqb command "git remote"
  then Some "origin
upstream
"
  else None.

(** The URL of a remote after normalisation, when the remote exists and its
    URL has the shape of a github.com repository. *)
Definition recognizedRemote (sh : Shell) (gitRoot remoteName : string)
    : option string :=
  match sh ("git remote get-url " ++ remoteName) gitRoot with
  | Some stdout => normalizeGitHubUrl (trim stdout)
  | None => None
  end.

(** What a command shows in the end: one error message and nothing opened,
    or the opened URL followed by one information message. *)
Definition single_notification (shown : list ui) : Prop :=
  (exists text, shown = [ErrorMessage text])
  \/ (exists url text, shown = [Opened url; InformationMessage text]).

(** The body of a command keeps to [single_notification] when it returns. *)
Definition tidy (sh : Shell) (body : Git (list ui)) : Prop :=
  forall shown, result body sh = Return shown -> single_notification shown.

(** The four commands the extension registers. *)
Definition commands (host : Host) : list (Git (list ui)) :=
  [openFileInGitHub host false; openFileInGitHub host true;
   openRepositoryInGitHub host; openPRForLastChangedLine host].

(** The repository root a command works in: the trimmed, non-empty answer
    of [git rev-parse --show-toplevel] in the directory of the file. *)
Definition git_root (host : Host) (editor : Editor) (sh : Shell) : option string :=
  present (option_map trim
             (sh "git rev-parse --show-toplevel"
                (path_dirname host (fsPath editor)))).

(** An editor on line 42 (zero-based 41) of a file of the repository
    [/work/widgets] on a POSIX host, with a browser that opens every URL. *)
Definition example_host : Host :=
  {| activeTextEditor :=
       Some {| fsPath := "/work/widgets/src/index.ts"; line := 41 |};
     settings := fun _ => None;
     flags := fun _ => None;
     path_dirname := fun _ => "/work/widgets/src";
     path_relative := Path.relative "/";
     open := fun _ => None;
     exec_message := fun e => "Command failed: " ++ command e |}.

(** The repository [/work/widgets]: on branch [main], with [origin] on
    github.com; line 42 of the file was last changed by a commit that closes
    change request 128. *)
Definition widgets_shell : Shell := fun command _ =>
  if String.eqb command "git rev-parse --show-toplevel"
  then Some "/work/widgets
"
  else if String.eqb command "git remote get-url origin"
  then Some "git@github.com:acme/widgets.git
"
  else if String.eqb command "git branch --show-current"
  then Some "main
"
  else if startsWith "git blame -L 42,42 --porcelain " command
  then Some "0123456789abcdef0123456789abcdef01234567 42 42 1
author A U Thor
"
  else if String.eqb command
            "git log -1 --format=%B 0123456789abcdef0123456789abcdef01234567"
  then Some "Fix the parser (#128)
"
  else None.

(** The same repository when git answers nothing about the current
    reference. *)
Definition no_reference_shell : Shell := fun command _ =>
  if String.eqb command "git rev-parse --show-toplevel"
  then Some "/work/widgets
"
  else if String.eqb command "git remote get-url origin"
  then Some "git@github.com:acme/widgets.git
"
  else None.

(** The message when no repository URL is found. *)
Definition no_repository_url : string :=
  "Could not determine GitHub repository URL. Please configure openInGithub.repositoryUrl or ensure a GitHub remote exists.".

(** The call [getRemoteUrl] makes for a remote. *)
Definition get_url (gitRoot remoteName : string) : Exec :=
  {| command := "git remote get-url " ++ remoteName; cwd := gitRoot |}.

(** The names [getAllRemotes] finds. *)
Definition remoteNames (sh : Shell) (gitRoot : string) : list string :=
  match sh "git remote" gitRoot with
  | Some stdout =>
      filter (fun name => 0 <? String.length name) (split "010" (trim stdout))
  | None => []
  end.

(** Every character of a string satisfies [p]. *)
Fixpoint all_chars (p : ascii -> bool) (s : string) : bool :=
  match s with
  | EmptyString => true
  | String a s' => p a && all_chars p s'
  end.

(** The next character, if there is one, does not satisfy [p]. *)
Definition stops (p : ascii -> bool) (s : string) : bool :=
  match s with
  | EmptyString => true
  | String a _ => negb (p a)
  end.

(** A path segment of a URL: not empty, no slash. *)
Definition segment (s : string) : bool := truthy s && all_chars not_slash s.

(** The raw forms of a github.com remote: over https, in the scp-like
    syntax of ssh, and as an ssh URL. *)
Inductive raw_form : Type := Https | Scp | Ssh.

Definition raw_prefix (f : raw_form) : string :=
  match f with
  | Https => "https://"
  | Scp => "git@"
  | Ssh => "ssh://git@"
  end.

Definition raw_separator (f : raw_form) : string :=
  match f with
  | Https => "/"
  | Scp => ":"
  | Ssh => "/"
  end.

(** What may follow the repository name: [.git], then a slash, both
    optional. *)
Definition raw_tail (dotgit slash : bool) : string :=
  (if dotgit then ".git" else "") ++ (if slash then "/" else "").

Definition raw_url (f : raw_form) (org repo : string) (dotgit slash : bool)
    : string :=
  raw_prefix f ++ "github.com" ++ raw_separator f
    ++ org ++ "/" ++ repo ++ raw_tail dotgit slash.

(** The normal form [https://github.com/<org>/<repo>]. *)
Definition canonical_url (org repo : string) : string :=
  "https://github.com/" ++ org ++ "/" ++ repo.

(** The branch query gave no name: it failed, or its answer is blank (a
    detached HEAD). *)
Definition no_branch (sh : Shell) (gitRoot : string) : Prop :=
  sh "git branch --show-current" gitRoot = None
  \/ exists stdout,
       sh "git branch --show-current" gitRoot = Some stdout /\ trim stdout = "".

(** A repository where [git log] shows one commit message, whatever the
    commit. *)
Definition commit_shell (message : string) : Shell := fun command _ =>
  if startsWith "git log -1 --format=%B " command then Some message else None.

(** A repository on a branch, and one with a detached HEAD. *)
Definition branch_shell (branch commit : string) : Shell := fun command _ =>
  if String.eqb command "git branch --show-current" then Some branch
  else if String.eqb command "git rev-parse HEAD" then Some commit
  else None.

(** [filePath] lies under [gitRoot]: resolved, it is the root followed by
    the segments [below]. *)
Definition lies_under (cwd gitRoot filePath : string) (below : list string)
    : Prop :=
  Path.resolve cwd filePath = (Path.resolve cwd gitRoot ++ below)%list.

(** The end of a line in the output of git. *)
Definition newline : string := String "010" "".

(** A remote name as git prints it: not empty, no white space. *)
Definition remote_name (s : string) : bool :=
  truthy s && all_chars (fun a => negb (is_js_space a)) s.


(** A shell in a directory without git: every command fails. *)
Definition no_git : Shell := fun _ _ => None.

(** ** Strings *)

Section StringFacts.

Lemma append_nil_r (s : string) : s ++ "" = s.
Proof. induction s as [|a s IH]; simpl; [reflexivity | now rewrite IH]. Qed.

Lemma append_assoc (s t u : string) : (s ++ t) ++ u = s ++ (t ++ u).
Proof. induction s as [|a s IH]; simpl; [reflexivity | now rewrite IH]. Qed.

Lemma length_append (s t : string) :
  String.length (s ++ t) = String.length s + String.length t.
Proof. induction s as [|a s IH]; simpl; [reflexivity | now rewrite IH]. Qed.

Lemma append_inv_head (s t u : string) : s ++ t = s ++ u -> t = u.
Proof.
  induction s as [|a s IH]; simpl; intros H; [exact H|].
  inversion H. auto.
Qed.

Lemma append_eq_self (s t : string) : s ++ t = s -> t = "".
Proof.
  intros H. apply (append_inv_head s). now rewrite append_nil_r.
Qed.

Lemma substring_prefix (s t : string) :
  substring 0 (String.length (s ++ t) - String.length t) (s ++ t) = s.
Proof.
  rewrite length_append.
  replace (String.length s + String.length t - String.length t)
    with (String.length s) by lia.
  induction s as [|a s IH]; simpl.
  - destruct t; reflexivity.
  - now rewrite IH.
Qed.

Lemma all_chars_append (p : ascii -> bool) (s t : string) :
  all_chars p (s ++ t) = all_chars p s && all_chars p t.
Proof.
  induction s as [|a s IH]; simpl; [reflexivity|].
  now rewrite IH, andb_assoc.
Qed.

Lemma endsWith_self (p : string) : endsWith p p = true.
Proof. destruct p; simpl; [reflexivity|]. now rewrite Ascii.eqb_refl, String.eqb_refl. Qed.

Lemma endsWith_append (p s : string) : endsWith p (s ++ p) = true.
Proof.
  induction s as [|a s IH]; cbn [append].
  - apply endsWith_self.
  - cbn [endsWith]. rewrite IH. apply orb_true_r.
Qed.

Lemma endsWith_suffix (p s t : string) :
  endsWith p t = true -> endsWith p (s ++ t) = true.
Proof.
  intros H. induction s as [|a s IH]; cbn [append]; [exact H|].
  cbn [endsWith]. rewrite IH. apply orb_true_r.
Qed.

End StringFacts.

(** ** The matcher on literal words *)

Section LiteralFacts.

Lemma rmatch_Lit (w s : string) (c : captures) (k : Cont) :
  rmatch (Lit false w) (w ++ s) c k = k s c.
Proof.
  induction w as [|a w IH]; simpl; [reflexivity|].
  rewrite Ascii.eqb_refl. exact IH.
Qed.

Lemma rmatch_Lit_inv (w s : string) (c : captures) (k : Cont) (m : captures) :
  rmatch (Lit false w) s c k = Some m ->
  exists s', s = w ++ s' /\ k s' c = Some m.
Proof.
  revert s. induction w as [|a w IH]; simpl; intros s H.
  - exists s; auto.
  - destruct s as [|b s]; [discriminate|].
    destruct (Ascii.eqb_spec a b) as [->|]; [|discriminate].
    destruct (IH _ H) as (s' & -> & Hk). exists s'; auto.
Qed.

(** Where a pattern that starts with a literal word matches, the word alone
    matches as well. *)
Lemma search_Lit_prefix (w : string) (r : regex) (s : string) (m : captures) :
  search (Seq (Lit false w) r) s = Some m -> test (Lit false w) s = true.
Proof.
  unfold test. induction s as [|a s IH]; simpl search.
  - destruct (rmatch (Lit false w) "" [] (fun s' c' => rmatch r s' c' accept))
      eqn:H; [|discriminate].
    intros _. apply rmatch_Lit_inv in H. destruct H as (s' & -> & _).
    now rewrite rmatch_Lit.
  - destruct (rmatch (Lit false w) (String a s) [] (fun s' c' => rmatch r s' c' accept))
      eqn:H.
    + intros _. apply rmatch_Lit_inv in H. destruct H as (s' & -> & _).
      now rewrite rmatch_Lit.
    + intros H'. specialize (IH H').
      destruct (rmatch (Lit false w) (String a s) [] accept); [reflexivity|].
      exact IH.
Qed.

End LiteralFacts.

(** ** Remotes *)

Section RemoteFacts.

Lemma normalize_isGitHubUrl (url normalized : string) :
  normalizeGitHubUrl url = Some normalized ->
  truthy url = true /\ isGitHubUrl url = true /\ truthy normalized = true.
Proof.
  unfold normalizeGitHubUrl, isGitHubUrl.
  destruct (truthy url); simpl; [|discriminate].
  destruct (search re_repository url) as [m|] eqn:Hm; [|discriminate].
  intros H. inversion H; subst. repeat split.
  eapply search_Lit_prefix. exact Hm.
Qed.

(** The guards around [normalizeGitHubUrl] reject nothing it accepts. *)
Lemma githubRemote_normalize (url : string) :
  githubRemote (Some url) = normalizeGitHubUrl url.
Proof.
  unfold githubRemote.
  destruct (normalizeGitHubUrl url) as [n|] eqn:Hn.
  - destruct (normalize_isGitHubUrl _ _ Hn) as (-> & -> & ->). reflexivity.
  - destruct (truthy url && isGitHubUrl url); reflexivity.
Qed.

Lemma getRemoteUrl_run (gitRoot remoteName : string) (sh : Shell) :
  getRemoteUrl gitRoot remoteName sh =
  (Return (option_map trim (sh ("git remote get-url " ++ remoteName) gitRoot)),
   [{| command := "git remote get-url " ++ remoteName; cwd := gitRoot |}]).
Proof.
  unfold getRemoteUrl, try_catch, bind, execAsync, ret, after.
  destruct (sh _ gitRoot); reflexivity.
Qed.

Lemma githubRemote_recognized (sh : Shell) (gitRoot remoteName : string) :
  githubRemote (option_map trim (sh ("git remote get-url " ++ remoteName) gitRoot))
  = recognizedRemote sh gitRoot remoteName.
Proof.
  unfold recognizedRemote. destruct (sh _ gitRoot) as [out|]; simpl option_map.
  - apply githubRemote_normalize.
  - reflexivity.
Qed.

(** [fromRemotes], step by step. *)
Lemma fromRemotes_run (gitRoot : string) (sh : Shell) :
  fromRemotes gitRoot sh =
  after [{| command := "git remote get-url upstream"; cwd := gitRoot |}]
    match recognizedRemote sh gitRoot "upstream" with
    | Some normalized => (Return (Some normalized), [])
    | None =>
        after [{| command := "git remote get-url origin"; cwd := gitRoot |}]
          match recognizedRemote sh gitRoot "origin" with
          | Some normalized => (Return (Some normalized), [])
          | None =>
              (allRemotes <- getAllRemotes gitRoot ;;
               firstGitHubRemote gitRoot allRemotes) sh
          end
    end.
Proof.
  unfold fromRemotes. unfold bind at 1. rewrite getRemoteUrl_run.
  rewrite githubRemote_recognized.
  destruct (recognizedRemote sh gitRoot "upstream"); [reflexivity|].
  unfold bind at 1. rewrite getRemoteUrl_run.
  rewrite githubRemote_recognized.
  destruct (recognizedRemote sh gitRoot "origin"); reflexivity.
Qed.

Lemma githubRemote_truthy (remoteUrl : option string) (normalized : string) :
  githubRemote remoteUrl = Some normalized -> truthy normalized = true.
Proof.
  destruct remoteUrl as [url|]; simpl; [|discriminate].
  destruct (truthy url && isGitHubUrl url); [|discriminate].
  destruct (normalizeGitHubUrl url) as [n|]; [|discriminate].
  destruct (truthy n) eqn:Hn; [|discriminate].
  intros H; inversion H; subst; exact Hn.
Qed.

Lemma firstGitHubRemote_truthy (gitRoot : string) (sh : Shell) :
  forall remotes url,
    fst (firstGitHubRemote gitRoot remotes sh) = Return (Some url) ->
    truthy url = true.
Proof.
  induction remotes as [|r rest IH]; intros url; simpl.
  - discriminate.
  - unfold bind. rewrite getRemoteUrl_run.
    destruct (githubRemote _) as [n|] eqn:Hn; simpl.
    + intros H. inversion H; subst. eapply githubRemote_truthy; eassumption.
    + apply IH.
Qed.

End RemoteFacts.

Section PriorityFacts.

Variables (gitRoot : string) (sh : Shell).

Lemma getAllRemotes_run :
  getAllRemotes gitRoot sh =
  (Return (remoteNames sh gitRoot),
   [{| command := "git remote"; cwd := gitRoot |}]).
Proof.
  unfold getAllRemotes, remoteNames, try_catch, bind, execAsync, ret, after.
  destruct (sh "git remote" gitRoot); reflexivity.
Qed.

Lemma fromRemotes_truthy (url : string) :
  result (fromRemotes gitRoot) sh = Return (Some url) -> truthy url = true.
Proof.
  unfold result. rewrite fromRemotes_run. unfold after at 1. simpl fst.
  destruct (recognizedRemote sh gitRoot "upstream") as [n|] eqn:Hup.
  { simpl. intros H; inversion H; subst.
    rewrite <- githubRemote_recognized in Hup.
    eapply githubRemote_truthy; eassumption. }
  unfold after at 1. simpl fst.
  destruct (recognizedRemote sh gitRoot "origin") as [n|] eqn:Hor.
  { simpl. intros H; inversion H; subst.
    rewrite <- githubRemote_recognized in Hor.
    eapply githubRemote_truthy; eassumption. }
  unfold bind. rewrite getAllRemotes_run. unfold after. simpl fst.
  apply firstGitHubRemote_truthy.
Qed.

Lemma fromRemotes_queries_upstream (normalized : string) :
  recognizedRemote sh gitRoot "upstream" = Some normalized ->
  fromRemotes gitRoot sh =
  (Return (Some normalized),
   [{| command := "git remote get-url upstream"; cwd := gitRoot |}]).
Proof.
  intros H. rewrite fromRemotes_run, H. reflexivity.
Qed.

Lemma fromRemotes_origin_queried :
  In "git remote get-url origin" (queries (fromRemotes gitRoot) sh) ->
  recognizedRemote sh gitRoot "upstream" = None.
Proof.
  unfold queries. rewrite fromRemotes_run.
  destruct (recognizedRemote sh gitRoot "upstream"); [|reflexivity].
  simpl. intros [H|[]]. discriminate.
Qed.

Lemma fromRemotes_enumeration_queried :
  In "git remote" (queries (fromRemotes gitRoot) sh) ->
  recognizedRemote sh gitRoot "upstream" = None
  /\ recognizedRemote sh gitRoot "origin" = None.
Proof.
  unfold queries. rewrite fromRemotes_run.
  destruct (recognizedRemote sh gitRoot "upstream").
  { simpl. intros [H|[]]. discriminate. }
  destruct (recognizedRemote sh gitRoot "origin").
  { simpl. intros [H|[H|[]]]; discriminate. }
  auto.
Qed.

End PriorityFacts.

(** ** Configuration first *)

(** C1, as amended.  When the configured [repositoryUrl] is a non-empty
    string, [getGitHubRepositoryUrl] returns it verbatim, whatever the shell
    answers about the remotes, and runs no git command at all. *)
Theorem C1_config_nonempty_wins :
  forall (gitRoot : string) (config : string -> option string) (sh : Shell)
         (configUrl : string),
    config "repositoryUrl" = Some configUrl ->
    configUrl <> "" ->
    result (getGitHubRepositoryUrl gitRoot config) sh = Return (Some configUrl)
    /\ queries (getGitHubRepositoryUrl gitRoot config) sh = [].
Proof.
  intros gitRoot config sh configUrl Hcfg Hne.
  unfold result, queries, getGitHubRepositoryUrl. rewrite Hcfg.
  destruct configUrl as [|a u]; [congruence|]. split; reflexivity.
Qed.

Lemma C1_config_nonempty_wins_witness :
  result (getGitHubRepositoryUrl "/repo"
            (fun _ => Some "https://github.com/acme/widgets")) example_shell
  = Return (Some "https://github.com/acme/widgets")
  /\ queries (getGitHubRepositoryUrl "/repo"
                (fun _ => Some "https://github.com/acme/widgets")) example_shell
     = [].
Proof.
  apply (C1_config_nonempty_wins "/repo"
           (fun _ => Some "https://github.com/acme/widgets") example_shell
           "https://github.com/acme/widgets").
  - reflexivity.
  - discriminate.
Defined.

(** C1 as stated fails: a [repositoryUrl] that is set to the empty string is
    not what [getGitHubRepositoryUrl] returns. *)
Lemma C1_empty_config_not_returned :
  (fun _ : string => Some "") "repositoryUrl" = Some ""
  /\ result (getGitHubRepositoryUrl "/repo" (fun _ => Some "")) example_shell
     = Return (Some "https://github.com/acme/upstream-repo")
  /\ result (getGitHubRepositoryUrl "/repo" (fun _ => Some "")) example_shell
     <> Return (Some "").
Proof.
  split; [reflexivity|]. split; [vm_compute; reflexivity|].
  vm_compute. discriminate.
Qed.

(** C9.  A [repositoryUrl] set to the empty string counts as absent: the
    function does what it does without the setting, starting with the query
    for [upstream], and never returns the empty string. *)
Theorem C9_empty_config_is_absent :
  forall (gitRoot : string) (config : string -> option string) (sh : Shell),
    config "repositoryUrl" = Some "" ->
    getGitHubRepositoryUrl gitRoot config sh = fromRemotes gitRoot sh
    /\ getGitHubRepositoryUrl gitRoot config sh
       = getGitHubRepositoryUrl gitRoot (fun _ => None) sh
    /\ result (getGitHubRepositoryUrl gitRoot config) sh <> Return (Some "")
    /\ hd_error (queries (getGitHubRepositoryUrl gitRoot config) sh)
       = Some "git remote get-url upstream".
Proof.
  intros gitRoot config sh Hcfg.
  assert (E : getGitHubRepositoryUrl gitRoot config sh = fromRemotes gitRoot sh).
  { unfold getGitHubRepositoryUrl. rewrite Hcfg. reflexivity. }
  split; [exact E|]. split; [rewrite E; reflexivity|]. split.
  - unfold result. rewrite E. intros H.
    apply fromRemotes_truthy in H. discriminate.
  - unfold queries. rewrite E, fromRemotes_run. reflexivity.
Qed.

Lemma C9_empty_config_is_absent_witness :
  getGitHubRepositoryUrl "/repo" (fun _ => Some "") example_shell
  = fromRemotes "/repo" example_shell
  /\ getGitHubRepositoryUrl "/repo" (fun _ => Some "") example_shell
     = getGitHubRepositoryUrl "/repo" (fun _ => None) example_shell
  /\ result (getGitHubRepositoryUrl "/repo" (fun _ => Some "")) example_shell
     <> Return (Some "")
  /\ hd_error (queries (getGitHubRepositoryUrl "/repo" (fun _ => Some "")) example_shell)
     = Some "git remote get-url upstream".
Proof.
  apply (C9_empty_config_is_absent "/repo" (fun _ => Some "") example_shell).
  reflexivity.
Defined.

(** ** Upstream before origin *)

(** C2.  Without a configured [repositoryUrl], a recognised URL of [upstream]
    is the result, normalised, and [upstream] is the only remote that is
    asked; [origin] is asked only when [upstream] gave nothing, and the
    remotes are listed only when both gave nothing. *)
Theorem C2_upstream_before_origin :
  forall (gitRoot : string) (config : string -> option string) (sh : Shell),
    config "repositoryUrl" = None ->
    (forall normalized,
        recognizedRemote sh gitRoot "upstream" = Some normalized ->
        result (getGitHubRepositoryUrl gitRoot config) sh = Return (Some normalized)
        /\ queries (getGitHubRepositoryUrl gitRoot config) sh
           = ["git remote get-url upstream"])
    /\ (In "git remote get-url origin"
           (queries (getGitHubRepositoryUrl gitRoot config) sh) ->
        recognizedRemote sh gitRoot "upstream" = None)
    /\ (In "git remote" (queries (getGitHubRepositoryUrl gitRoot config) sh) ->
        recognizedRemote sh gitRoot "upstream" = None
        /\ recognizedRemote sh gitRoot "origin" = None).
Proof.
  intros gitRoot config sh Hcfg.
  assert (E : getGitHubRepositoryUrl gitRoot config = fromRemotes gitRoot).
  { unfold getGitHubRepositoryUrl. rewrite Hcfg. reflexivity. }
  rewrite E. split; [|split].
  - intros normalized H. unfold result, queries.
    rewrite (fromRemotes_queries_upstream _ _ _ H). split; reflexivity.
  - apply fromRemotes_origin_queried.
  - apply fromRemotes_enumeration_queried.
Qed.

Lemma C2_upstream_before_origin_witness :
  recognizedRemote example_shell "/repo" "origin"
  = Some "https://github.com/acme/fork"
  /\ result (getGitHubRepositoryUrl "/repo" (fun _ => None)) example_shell
     = Return (Some "https://github.com/acme/upstream-repo")
  /\ queries (getGitHubRepositoryUrl "/repo" (fun _ => None)) example_shell
     = ["git remote get-url upstream"].
Proof.
  split; [vm_compute; reflexivity|].
  apply (C2_upstream_before_origin "/repo" (fun _ => None) example_shell).
  - reflexivity.
  - vm_compute. reflexivity.
Defined.

(** ** Fuel *)

Section FuelFacts.

(** A pattern calls its continuation only on what is left of its input. *)
Lemma rmatch_ext (r : regex) :
  forall s c k k',
    (forall s' c', String.length s' <= String.length s -> k s' c' = k' s' c') ->
    rmatch r s c k = rmatch r s c k'.
Proof.
  induction r as [|p|r1 IH1 r2 IH2|r1 IH1 r2 IH2|g r1 IH1|i r1 IH1|];
    intros s c k k' Hk; cbn [rmatch].
  - apply Hk. lia.
  - destruct s as [|a s']; [reflexivity|].
    destruct (p a); [|reflexivity]. apply Hk. simpl. lia.
  - apply IH1. intros s' c' Hs'. apply IH2.
    intros s'' c'' Hs''. apply Hk. lia.
  - rewrite (IH1 s c k k' Hk), (IH2 s c k k' Hk). reflexivity.
  - generalize (S (String.length s)). intros fuel. revert s c Hk.
    induction fuel as [|fuel IHf]; intros s c Hk; [reflexivity|].
    cbn [star_loop].
    rewrite (IH1 s c _
               (fun s' c' =>
                  if String.length s' <? String.length s
                  then star_loop g (rmatch r1) k' fuel s' c' else None)).
    + rewrite (Hk s c) by lia. reflexivity.
    + intros s' c' Hs'.
      destruct (String.length s' <? String.length s) eqn:E; [|reflexivity].
      apply IHf. intros s'' c'' Hs''. apply Hk. lia.
  - apply IH1. intros s' c' Hs'. apply Hk. exact Hs'.
  - destruct s; [|reflexivity]. apply Hk. simpl. lia.
Qed.

(** Every iteration shortens the input, so the loop of a quantifier gives
    the same result with any fuel above the length of the input: the fuel
    [rmatch] provides is never used up. *)
Lemma star_loop_fuel (g : bool) (r : regex) (k : Cont) :
  forall fuel1 fuel2 s c,
    String.length s < fuel1 ->
    String.length s < fuel2 ->
    star_loop g (rmatch r) k fuel1 s c = star_loop g (rmatch r) k fuel2 s c.
Proof.
  induction fuel1 as [|fuel1 IH]; intros fuel2 s c H1 H2; [inversion H1|].
  destruct fuel2 as [|fuel2]; [inversion H2|].
  cbn [star_loop].
  rewrite (rmatch_ext r s c _
             (fun s' c' =>
                if String.length s' <? String.length s
                then star_loop g (rmatch r) k fuel2 s' c' else None)).
  - reflexivity.
  - intros s' c' _.
    destruct (String.length s' <? String.length s) eqn:E; [|reflexivity].
    apply Nat.ltb_lt in E. apply IH; lia.
Qed.

End FuelFacts.

(** ** Quantified character classes *)

Section ClassFacts.

Variable p : ascii -> bool.
Variable k : Cont.

(** One step of the loop on a class. *)
Lemma star_loop_nil (g : bool) (fuel : nat) (c : captures) :
  star_loop g (rmatch (Class p)) k (S fuel) "" c = k "" c.
Proof. destruct g; simpl; [reflexivity | destruct (k "" c); reflexivity]. Qed.

Lemma star_loop_cons (g : bool) (fuel : nat) (a : ascii) (s : string) (c : captures) :
  star_loop g (rmatch (Class p)) k (S fuel) (String a s) c =
  let again := if p a then star_loop g (rmatch (Class p)) k fuel s c else None in
  if g then match again with Some m => Some m | None => k (String a s) c end
  else match k (String a s) c with Some m => Some m | None => again end.
Proof.
  cbv zeta. cbn [star_loop rmatch String.length].
  replace (String.length s <? S (String.length s)) with true
    by (symmetry; apply Nat.ltb_lt; lia).
  reflexivity.
Qed.

(** A greedy class takes the whole run when the rest of the pattern accepts
    what follows it. *)
Lemma star_greedy_run (rest : string) (c m : captures) :
  stops p rest = true ->
  k rest c = Some m ->
  forall run fuel,
    all_chars p run = true ->
    String.length (run ++ rest) < fuel ->
    star_loop true (rmatch (Class p)) k fuel (run ++ rest) c = Some m.
Proof.
  intros Hstop Hk. induction run as [|a run IH]; intros fuel Hall Hlen.
  - destruct fuel as [|fuel]; [inversion Hlen|].
    destruct rest as [|b rest']; cbn [append].
    + rewrite star_loop_nil. exact Hk.
    + rewrite star_loop_cons. cbv zeta. simpl in Hstop.
      destruct (p b); [discriminate|]. exact Hk.
  - destruct fuel as [|fuel]; [inversion Hlen|].
    simpl in Hall. apply andb_prop in Hall. destruct Hall as [Ha Hall].
    simpl in Hlen. cbn [append]. rewrite star_loop_cons. cbv zeta.
    rewrite Ha, (IH fuel Hall) by lia. reflexivity.
Qed.

(** A lazy class stops at the first point where the rest of the pattern
    accepts. *)
Lemma star_lazy_run (rest : string) (c m : captures) :
  k rest c = Some m ->
  forall run fuel,
    all_chars p run = true ->
    String.length (run ++ rest) < fuel ->
    (forall r1 r2, run = r1 ++ r2 -> r2 <> "" -> k (r2 ++ rest) c = None) ->
    star_loop false (rmatch (Class p)) k fuel (run ++ rest) c = Some m.
Proof.
  intros Hk. induction run as [|a run IH]; intros fuel Hall Hlen Hnone.
  - destruct fuel as [|fuel]; [inversion Hlen|]. cbn [append].
    destruct rest as [|b rest'].
    + rewrite star_loop_nil. exact Hk.
    + rewrite star_loop_cons. cbv zeta. now rewrite Hk.
  - destruct fuel as [|fuel]; [inversion Hlen|].
    simpl in Hall. apply andb_prop in Hall. destruct Hall as [Ha Hall].
    simpl in Hlen.
    assert (H0 : k (String a run ++ rest) c = None).
    { apply (Hnone "" (String a run)); [reflexivity | discriminate]. }
    cbn [append] in *. rewrite star_loop_cons. cbv zeta. rewrite H0, Ha.
    apply IH; [exact Hall | lia |].
    intros r1 r2 E Hne. apply (Hnone (String a r1) r2); [now rewrite E | exact Hne].
Qed.

(** Whatever a quantified class matched is a run of the class, and the rest
    of the pattern accepted what follows. *)
Lemma star_class_inv (g : bool) (m : captures) :
  forall fuel s c,
    star_loop g (rmatch (Class p)) k fuel s c = Some m ->
    exists run rest,
      s = run ++ rest /\ all_chars p run = true /\ k rest c = Some m.
Proof.
  induction fuel as [|fuel IH]; intros s c H; [discriminate|].
  assert (Hstop : k s c = Some m ->
    exists run rest, s = run ++ rest /\ all_chars p run = true /\ k rest c = Some m).
  { intros H'. exists "", s. auto. }
  destruct s as [|a s].
  - rewrite star_loop_nil in H. auto.
  - rewrite star_loop_cons in H. cbv zeta in H.
    assert (Hagain :
      (if p a then star_loop g (rmatch (Class p)) k fuel s c else None) = Some m ->
      exists run rest,
        String a s = run ++ rest /\ all_chars p run = true /\ k rest c = Some m).
    { destruct (p a) eqn:Ha; [|discriminate].
      intros H'. destruct (IH _ _ H') as (run & rest & -> & Hall & Hk).
      exists (String a run), rest. simpl. rewrite Ha, Hall. auto. }
    destruct g.
    + destruct (if p a then star_loop true (rmatch (Class p)) k fuel s c else None).
      * apply Hagain. exact H.
      * auto.
    + destruct (k (String a s) c).
      * apply Hstop. exact H.
      * auto.
Qed.

End ClassFacts.

(** ** Equations of the matcher *)

Section MatcherEquations.

Variables (s : string) (c : captures) (k : Cont).

Lemma rmatch_Seq (r1 r2 : regex) :
  rmatch (Seq r1 r2) s c k = rmatch r1 s c (fun s' c' => rmatch r2 s' c' k).
Proof. reflexivity. Qed.

Lemma rmatch_Opt (r : regex) :
  rmatch (Opt r) s c k =
  match rmatch r s c k with Some m => Some m | None => k s c end.
Proof. reflexivity. Qed.

Lemma rmatch_Group (i : nat) (r : regex) :
  rmatch (Group i r) s c k =
  rmatch r s c (fun s' c' =>
    k s' ((i, substring 0 (String.length s - String.length s') s) :: c')).
Proof. reflexivity. Qed.

Lemma rmatch_Plus (g : bool) (p : ascii -> bool) (a : ascii) :
  p a = true ->
  rmatch (Plus g (Class p)) (String a s) c k =
  star_loop g (rmatch (Class p)) k (S (String.length s)) s c.
Proof. intros H. cbn [Plus rmatch]. now rewrite H. Qed.

Lemma rmatch_Plus_inv (g : bool) (p : ascii -> bool) (m : captures) :
  rmatch (Plus g (Class p)) s c k = Some m ->
  exists a run rest,
    s = String a run ++ rest /\ p a = true /\ all_chars p run = true
    /\ k rest c = Some m.
Proof.
  cbn [Plus rmatch]. destruct s as [|a s']; [discriminate|].
  destruct (p a) eqn:Ha; [|discriminate].
  intros H. apply star_class_inv in H. destruct H as (run & rest & -> & Hall & Hk).
  exists a, run, rest. auto.
Qed.

Lemma rmatch_chr (a : ascii) :
  rmatch (chr a) (String a s) c k = k s c.
Proof. cbn [chr rmatch]. now rewrite Ascii.eqb_refl. Qed.

Lemma rmatch_chr_inv (a : ascii) (m : captures) :
  rmatch (chr a) s c k = Some m -> exists s', s = String a s' /\ k s' c = Some m.
Proof.
  cbn [chr rmatch]. destruct s as [|b s']; [discriminate|].
  destruct (Ascii.eqb_spec a b) as [<-|]; [|discriminate].
  intros H. exists s'. auto.
Qed.

End MatcherEquations.

(** ** The repository pattern *)

Section RepositoryPattern.

Lemma slash_end_inv (s : string) (c m : captures) :
  rmatch (Seq (Opt (chr "/")) AssertEnd) s c accept = Some m ->
  m = c /\ (s = "" \/ s = "/").
Proof.
  destruct s as [|a [|b s]]; cbn -[Ascii.eqb]; unfold accept.
  - intros H; inversion H; auto.
  - destruct (Ascii.eqb_spec "/" a) as [<-|]; [|discriminate].
    intros H; inversion H; auto.
  - destruct (Ascii.eqb "/" a); discriminate.
Qed.

Lemma re_tail_accepts (dotgit slash : bool) (c : captures) :
  rmatch re_tail (raw_tail dotgit slash) c accept = Some c.
Proof. destruct dotgit, slash; reflexivity. Qed.

Lemma re_tail_inv (t : string) (c m : captures) :
  rmatch re_tail t c accept = Some m ->
  m = c /\ (t = "" \/ t = "/" \/ t = ".git" \/ t = ".git/").
Proof.
  unfold re_tail. rewrite rmatch_Seq, rmatch_Opt.
  destruct (rmatch (Lit false ".git") t c
              (fun s' c' => rmatch (Seq (Opt (chr "/")) AssertEnd) s' c' accept))
    as [m0|] eqn:E.
  - intros [= <-].
    apply rmatch_Lit_inv in E. destruct E as (s' & -> & E).
    apply slash_end_inv in E. destruct E as [-> [-> | ->]]; auto.
  - intros H. apply slash_end_inv in H. destruct H as [-> [-> | ->]]; auto.
Qed.

Ltac peel H :=
  repeat match type of H with
         | (?r ++ _)%string = _ => is_var r; destruct r; cbn [append] in H
         | String _ _ = String _ _ => injection H as ? H; subst
         end.

(** After a proper part of the repository name, what is left of the URL is
    not one of the four endings. *)
Lemma suffix_not_tail (r2 : string) (dotgit slash : bool) (t : string) :
  r2 <> "" ->
  all_chars not_slash r2 = true ->
  (dotgit = false -> r2 <> ".git") ->
  t = "" \/ t = "/" \/ t = ".git" \/ t = ".git/" ->
  r2 ++ raw_tail dotgit slash <> t.
Proof.
  intros Hne Hall Hcond Ht H.
  destruct dotgit, slash; cbn in H;
    destruct Ht as [-> | [-> | [-> | ->]]];
    peel H; try discriminate; try congruence;
    try (cbn in Hall; discriminate);
    try (apply Hcond; reflexivity).
Qed.

Lemma segment_cons (s : string) :
  segment s = true ->
  exists a s', s = String a s' /\ not_slash a = true /\ all_chars not_slash s' = true.
Proof.
  unfold segment. destruct s as [|a s']; simpl; [discriminate|].
  intros H. apply andb_prop in H. destruct H as [Ha Hs]. eauto.
Qed.

(** On [<org>/<repo>] and one of the endings, the pattern captures the two
    segments. *)
Lemma re_org_repo_matches (org repo : string) (dotgit slash : bool) (c : captures) :
  segment org = true ->
  segment repo = true ->
  (dotgit = false -> endsWith ".git" repo = false) ->
  rmatch re_org_repo (org ++ "/" ++ repo ++ raw_tail dotgit slash) c accept
  = Some ((2, repo) :: (1, org) :: c).
Proof.
  intros Horg Hrepo Hgit.
  destruct (segment_cons _ Horg) as (a & org' & -> & Ha & Horg').
  destruct (segment_cons _ Hrepo) as (b & repo' & -> & Hb & Hrepo').
  unfold re_org_repo. rewrite rmatch_Seq, rmatch_Group.
  cbn [append]. rewrite rmatch_Plus by exact Ha.
  apply star_greedy_run; [reflexivity | | exact Horg' | lia].
  change (String a (org' ++ String "/" (String b (repo' ++ raw_tail dotgit slash))))
    with (String a org' ++ String "/" (String b (repo' ++ raw_tail dotgit slash))).
  rewrite substring_prefix.
  rewrite rmatch_Seq, rmatch_chr, rmatch_Seq, rmatch_Group.
  rewrite rmatch_Plus by exact Hb.
  apply star_lazy_run; [ | exact Hrepo' | lia | ].
  - change (String b (repo' ++ raw_tail dotgit slash))
      with (String b repo' ++ raw_tail dotgit slash).
    rewrite substring_prefix. apply re_tail_accepts.
  - intros r1 r2 E Hne.
    match goal with |- ?lhs = None => destruct lhs as [m|] eqn:Hm end;
      [exfalso | reflexivity].
    apply re_tail_inv in Hm. destruct Hm as [_ Ht].
    apply (suffix_not_tail r2 dotgit slash (r2 ++ raw_tail dotgit slash));
      [exact Hne | | | exact Ht | reflexivity].
    + rewrite E, all_chars_append in Hrepo'.
      apply andb_prop in Hrepo'. tauto.
    + intros Hd Hr2. specialize (Hgit Hd). subst r2 repo'.
      change (String b (r1 ++ ".git")) with (String b r1 ++ ".git") in Hgit.
      rewrite endsWith_append in Hgit. discriminate.
Qed.

Lemma search_here (r : regex) (s : string) (m : captures) :
  rmatch r s [] accept = Some m -> search r s = Some m.
Proof. intros H. destruct s; simpl; now rewrite H. Qed.

Lemma search_next (r : regex) (a : ascii) (s : string) :
  rmatch r (String a s) [] accept = None ->
  search r (String a s) = search r s.
Proof. intros H. simpl. now rewrite H. Qed.

Lemma rmatch_github (s : string) (c : captures) (k : Cont) :
  rmatch (Lit false "github.com")
    (String "g" (String "i" (String "t" (String "h" (String "u" (String "b"
      (String "." (String "c" (String "o" (String "m" s)))))))))) c k
  = k s c.
Proof. exact (rmatch_Lit "github.com" s c k). Qed.

Lemma rmatch_Class (p : ascii -> bool) (a : ascii) (s : string)
    (c : captures) (k : Cont) :
  rmatch (Class p) (String a s) c k = if p a then k s c else None.
Proof. reflexivity. Qed.

(** The leftmost match in a raw URL is the one at the host name. *)
Lemma search_raw_url (f : raw_form) (org repo : string) (dotgit slash : bool) :
  segment org = true ->
  segment repo = true ->
  (dotgit = false -> endsWith ".git" repo = false) ->
  search re_repository (raw_url f org repo dotgit slash)
  = Some [(2, repo); (1, org)].
Proof.
  intros Horg Hrepo Hgit.
  pose proof (re_org_repo_matches org repo dotgit slash [] Horg Hrepo Hgit) as H.
  unfold raw_url.
  destruct f; cbn [raw_prefix raw_separator append] in *.
  - do 8 (rewrite search_next by reflexivity).
    apply search_here. unfold re_repository.
    rewrite rmatch_Seq, rmatch_github, rmatch_Seq, rmatch_Class. exact H.
  - do 4 (rewrite search_next by reflexivity).
    apply search_here. unfold re_repository.
    rewrite rmatch_Seq, rmatch_github, rmatch_Seq, rmatch_Class. exact H.
  - do 10 (rewrite search_next by reflexivity).
    apply search_here. unfold re_repository.
    rewrite rmatch_Seq, rmatch_github, rmatch_Seq, rmatch_Class. exact H.
Qed.

Lemma normalize_raw_url (f : raw_form) (org repo : string) (dotgit slash : bool) :
  segment org = true ->
  segment repo = true ->
  (dotgit = false -> endsWith ".git" repo = false) ->
  normalizeGitHubUrl (raw_url f org repo dotgit slash)
  = Some (canonical_url org repo).
Proof.
  intros Horg Hrepo Hgit. unfold normalizeGitHubUrl.
  rewrite (search_raw_url f org repo dotgit slash Horg Hrepo Hgit).
  destruct f; reflexivity.
Qed.

Lemma canonical_is_raw (org repo : string) :
  canonical_url org repo = raw_url Https org repo false false.
Proof.
  unfold canonical_url, raw_url, raw_tail. cbn [raw_prefix raw_separator append].
  now rewrite append_nil_r.
Qed.

Lemma search_inv (r : regex) (m : captures) :
  forall s, search r s = Some m ->
  exists pre suf, s = pre ++ suf /\ rmatch r suf [] accept = Some m.
Proof.
  induction s as [|a s IH]; simpl.
  - destruct (rmatch r "" [] accept) eqn:E; [|discriminate].
    intros [= <-]. exists "", "". auto.
  - destruct (rmatch r (String a s) [] accept) eqn:E.
    + intros [= <-]. exists "", (String a s). auto.
    + intros H. destruct (IH H) as (pre & suf & -> & Hm).
      exists (String a pre), suf. auto.
Qed.

(** Whatever the pattern captures are two segments. *)
Lemma re_org_repo_inv (s : string) (c m : captures) :
  rmatch re_org_repo s c accept = Some m ->
  exists org repo,
    segment org = true /\ segment repo = true
    /\ m = (2, repo) :: (1, org) :: c.
Proof.
  unfold re_org_repo. rewrite rmatch_Seq, rmatch_Group. intros H.
  apply rmatch_Plus_inv in H.
  destruct H as (a & org' & rest & -> & Ha & Horg' & H).
  rewrite substring_prefix in H.
  rewrite rmatch_Seq in H. apply rmatch_chr_inv in H.
  destruct H as (s2 & -> & H).
  rewrite rmatch_Seq, rmatch_Group in H. apply rmatch_Plus_inv in H.
  destruct H as (b & repo' & rest2 & -> & Hb & Hrepo' & H).
  rewrite substring_prefix in H. apply re_tail_inv in H. destruct H as [-> _].
  exists (String a org'), (String b repo'). unfold segment. simpl.
  rewrite Ha, Horg', Hb, Hrepo'. auto.
Qed.

(** What [normalizeGitHubUrl] returns always has the normal form. *)
Lemma normalize_shape (url normalized : string) :
  normalizeGitHubUrl url = Some normalized ->
  exists org repo,
    segment org = true /\ segment repo = true
    /\ normalized = canonical_url org repo.
Proof.
  unfold normalizeGitHubUrl. destruct (negb (truthy url)); [discriminate|].
  destruct (search re_repository url) as [m|] eqn:Hm; [|discriminate].
  intros [= <-].
  apply search_inv in Hm. destruct Hm as (pre & suf & _ & Hm).
  unfold re_repository in Hm. rewrite rmatch_Seq in Hm.
  apply rmatch_Lit_inv in Hm. destruct Hm as (s1 & _ & Hm).
  rewrite rmatch_Seq in Hm. destruct s1 as [|x s2]; [discriminate|].
  rewrite rmatch_Class in Hm. destruct (colon_or_slash x); [|discriminate].
  apply re_org_repo_inv in Hm. destruct Hm as (org & repo & Horg & Hrepo & ->).
  exists org, repo. auto.
Qed.

End RepositoryPattern.

(** ** File links *)

(** C3.  A file link is [<repositoryUrl>/blob/<ref>/<relativePath>], followed
    by [#L<lineNumber>] exactly when a 1-based line number is given. *)
Theorem C3_constructGitHubUrl_file_link :
  (forall repositoryUrl gitRef relativePath,
      constructGitHubUrl repositoryUrl gitRef relativePath None
      = repositoryUrl ++ "/blob/" ++ gitRef ++ "/" ++ relativePath
      /\ forall lineNumber,
          (1 <= lineNumber)%N -> safe_integer lineNumber ->
          constructGitHubUrl repositoryUrl gitRef relativePath (Some lineNumber)
          = (repositoryUrl ++ "/blob/" ++ gitRef ++ "/" ++ relativePath)
              ++ "#L" ++ Number_toString lineNumber)
  /\ constructGitHubUrl "https://github.com/acme/widgets" "main" "src/index.ts" None
     = "https://github.com/acme/widgets/blob/main/src/index.ts"
  /\ constructGitHubUrl "https://github.com/acme/widgets" "main" "src/index.ts"
       (Some 42%N)
     = "https://github.com/acme/widgets/blob/main/src/index.ts#L42".
Proof.
  split; [|split; reflexivity].
  intros repositoryUrl gitRef relativePath. split; [reflexivity|].
  intros n Hn _. unfold constructGitHubUrl.
  destruct (N.eqb_spec n 0); [lia | reflexivity].
Qed.

Lemma C3_constructGitHubUrl_file_link_witness :
  constructGitHubUrl "https://github.com/elastic/kibana" "main" "README.md"
    (Some 59%N)
  = "https://github.com/elastic/kibana/blob/main/README.md#L59".
Proof.
  apply (proj2 (proj1 C3_constructGitHubUrl_file_link
                  "https://github.com/elastic/kibana" "main" "README.md") 59%N).
  - apply N.leb_le. reflexivity.
  - apply N.ltb_lt. reflexivity.
Defined.

Lemma constructGitHubUrl_Integer (repositoryUrl gitRef relativePath : string)
    (n : N) :
  JSNumber.constructGitHubUrl repositoryUrl gitRef relativePath
    (Some (JSNumber.Integer n))
  = constructGitHubUrl repositoryUrl gitRef relativePath (Some n).
Proof.
  unfold JSNumber.constructGitHubUrl, constructGitHubUrl. simpl.
  destruct (n =? 0)%N; reflexivity.
Qed.

(** C10, as amended.  Line number 0 gives no anchor: the link is the one
    without a line number.  NaN gives none either, and every other number
    gives the anchor [#L<lineNumber>]: the anchor is there if and only if
    the line number is given, is not 0 and is not NaN. *)
Theorem C10_anchor_iff_truthy_line :
  forall repositoryUrl gitRef relativePath,
    JSNumber.constructGitHubUrl repositoryUrl gitRef relativePath
      (Some (JSNumber.Integer 0))
    = JSNumber.constructGitHubUrl repositoryUrl gitRef relativePath None
    /\ constructGitHubUrl repositoryUrl gitRef relativePath (Some 0%N)
       = constructGitHubUrl repositoryUrl gitRef relativePath None
    /\ (forall lineNumber,
           JSNumber.safe lineNumber ->
           lineNumber <> JSNumber.Integer 0 ->
           lineNumber <> JSNumber.NaN ->
           JSNumber.constructGitHubUrl repositoryUrl gitRef relativePath
             (Some lineNumber)
           = JSNumber.constructGitHubUrl repositoryUrl gitRef relativePath None
               ++ "#L" ++ JSNumber.ToString lineNumber)
    /\ (forall lineNumber,
           (forall n, lineNumber = Some n -> JSNumber.safe n) ->
           (JSNumber.constructGitHubUrl repositoryUrl gitRef relativePath lineNumber
            = JSNumber.constructGitHubUrl repositoryUrl gitRef relativePath None
            <-> lineNumber = None
                \/ lineNumber = Some (JSNumber.Integer 0)
                \/ lineNumber = Some JSNumber.NaN)).
Proof.
  intros repositoryUrl gitRef relativePath.
  split; [reflexivity|]. split; [reflexivity|]. split.
  - intros [|k|text] _ H0 Hnan; [congruence | | reflexivity].
    unfold JSNumber.constructGitHubUrl. simpl.
    destruct (N.eqb_spec k 0) as [->|Hk]; [congruence | reflexivity].
  - intros [[|k|text]|] _; unfold JSNumber.constructGitHubUrl; simpl.
    + split; auto.
    + destruct (N.eqb_spec k 0) as [->|Hk]; simpl.
      * split; auto.
      * split.
        -- intros H. apply append_eq_self in H. discriminate.
        -- intros [H|[H|H]]; [discriminate | congruence | discriminate].
    + split.
      * intros H. apply append_eq_self in H. discriminate.
      * intros [H|[H|H]]; discriminate.
    + split; auto.
Qed.

Lemma C10_anchor_iff_truthy_line_witness :
  JSNumber.constructGitHubUrl "https://github.com/acme/widgets" "main"
    "src/index.ts" (Some (JSNumber.Integer 7))
  = "https://github.com/acme/widgets/blob/main/src/index.ts#L7".
Proof.
  apply (proj1 (proj2 (proj2 (C10_anchor_iff_truthy_line
                                "https://github.com/acme/widgets" "main"
                                "src/index.ts")))
           (JSNumber.Integer 7)).
  - apply N.ltb_lt. reflexivity.
  - discriminate.
  - discriminate.
Defined.

(** C10 as stated fails at NaN, a line number that is given and is not 0:
    the link has no anchor. *)
Lemma C10_NaN_gives_no_anchor :
  Some JSNumber.NaN <> None
  /\ JSNumber.NaN <> JSNumber.Integer 0
  /\ JSNumber.constructGitHubUrl "https://github.com/acme/widgets" "main"
       "src/index.ts" (Some JSNumber.NaN)
     = "https://github.com/acme/widgets/blob/main/src/index.ts"
  /\ JSNumber.constructGitHubUrl "https://github.com/acme/widgets" "main"
       "src/index.ts" (Some JSNumber.NaN)
     = JSNumber.constructGitHubUrl "https://github.com/acme/widgets" "main"
         "src/index.ts" None.
Proof.
  split; [discriminate|]. split; [discriminate|]. split; reflexivity.
Qed.

(** ** References *)

Section ReferenceFacts.

Variables (gitRoot : string) (sh : Shell).

Lemma getGitRef_run :
  result (getGitRef gitRoot false) sh =
  match sh "git branch --show-current" gitRoot with
  | Some stdout =>
      if truthy (trim stdout) then Return (trim stdout)
      else match sh "git rev-parse HEAD" gitRoot with
           | Some commit => Return (trim commit)
           | None => Throw (Error "Failed to get git reference")
           end
  | None =>
      match sh "git rev-parse HEAD" gitRoot with
      | Some commit => Return (trim commit)
      | None => Throw (Error "Failed to get git reference")
      end
  end.
Proof.
  unfold result, getGitRef, try_catch, bind, execAsync, ret, throw, after.
  destruct (sh "git branch --show-current" gitRoot) as [stdout|]; cbn.
  - destruct (truthy (trim stdout)); cbn; [reflexivity|].
    destruct (sh "git rev-parse HEAD" gitRoot); reflexivity.
  - destruct (sh "git rev-parse HEAD" gitRoot); reflexivity.
Qed.

Lemma truthy_nonempty (s : string) : truthy s = true <-> s <> "".
Proof. destruct s; simpl; split; congruence. Qed.

End ReferenceFacts.

(** C4.  Without the commit flag, [getGitRef] returns the branch name when
    the branch query gives one; otherwise it returns the commit identifier;
    it fails, with "Failed to get git reference", exactly when it needs the
    commit identifier and that query fails. *)
Theorem C4_getGitRef_branch_or_commit :
  forall (gitRoot : string) (sh : Shell),
    (forall stdout,
        sh "git branch --show-current" gitRoot = Some stdout ->
        trim stdout <> "" ->
        result (getGitRef gitRoot false) sh = Return (trim stdout))
    /\ (forall commit,
           no_branch sh gitRoot ->
           sh "git rev-parse HEAD" gitRoot = Some commit ->
           result (getGitRef gitRoot false) sh = Return (trim commit))
    /\ ((exists e, result (getGitRef gitRoot false) sh = Throw e)
        <-> no_branch sh gitRoot /\ sh "git rev-parse HEAD" gitRoot = None)
    /\ (forall e,
           result (getGitRef gitRoot false) sh = Throw e ->
           e = Error "Failed to get git reference").
Proof.
  intros gitRoot sh. rewrite getGitRef_run. unfold no_branch.
  destruct (sh "git branch --show-current" gitRoot) as [stdout|];
    [destruct (truthy (trim stdout)) eqn:Ht;
       [apply truthy_nonempty in Ht
       |assert (He : trim stdout = "")
          by (destruct (trim stdout); [reflexivity | discriminate])] |];
    destruct (sh "git rev-parse HEAD" gitRoot) as [commit|];
    (split; [|split; [|split]]);
    try solve [intros; congruence];
    try solve [intros ? [H|(out & H1 & H2)] ?; congruence];
    try solve [split;
                 [ intros [e H]; discriminate
                 | intros [[H|(out & H1 & H2)] H3]; congruence ]];
    try solve [split; [intros _; split; [eauto | reflexivity]
                      | intros _; eexists; reflexivity]].
Qed.

Lemma C4_getGitRef_branch_or_commit_witness :
  result (getGitRef "/repo" false)
    (branch_shell "feature-x
" "abcdef1234abcdef1234abcdef1234abcdef1234
")
  = Return "feature-x"
  /\ result (getGitRef "/repo" false)
       (branch_shell "
" "abcdef1234abcdef1234abcdef1234abcdef1234
")
     = Return "abcdef1234abcdef1234abcdef1234abcdef1234".
Proof.
  split.
  - apply (proj1 (C4_getGitRef_branch_or_commit "/repo" _) "feature-x
").
    + reflexivity.
    + discriminate.
  - apply (proj1 (proj2 (C4_getGitRef_branch_or_commit "/repo" _))
             "abcdef1234abcdef1234abcdef1234abcdef1234
").
    + right. exists "
". split; reflexivity.
    + reflexivity.
Defined.

(** ** Change-request numbers *)

(** C5, what the code does.  The keyword alternative [fixes?] reads [fixe]
    or [fixes], never [fix]: after an earlier bare [#3], [fix #12] is not
    seen by the second pattern and the third one answers 3, while [fixes],
    [close], [resolve] and [ref] in the same place answer 12.  The
    precedence of the merge phrase over a stray [#99] holds. *)
Theorem C5_getPRNumberFromCommit_fix_keyword :
  result (getPRNumberFromCommit "/repo" "0a1b2c3") (commit_shell "see #3, fix #12")
  = Return (Some "3")
  /\ result (getPRNumberFromCommit "/repo" "0a1b2c3") (commit_shell "see #3, fixes #12")
     = Return (Some "12")
  /\ result (getPRNumberFromCommit "/repo" "0a1b2c3") (commit_shell "see #3, close #12")
     = Return (Some "12")
  /\ result (getPRNumberFromCommit "/repo" "0a1b2c3") (commit_shell "see #3, resolve #12")
     = Return (Some "12")
  /\ result (getPRNumberFromCommit "/repo" "0a1b2c3") (commit_shell "see #3, ref #12")
     = Return (Some "12")
  /\ search re_closing "fix #12" = None
  /\ result (getPRNumberFromCommit "/repo" "0a1b2c3")
       (commit_shell "#99 Merge pull request #10 from acme/topic")
     = Return (Some "10")
  /\ result (getPRNumberFromCommit "/repo" "0a1b2c3") (commit_shell "no reference")
     = Return None.
Proof. repeat split; vm_compute; reflexivity. Qed.

(** ** Normalisation *)

(** C6.  Each raw form of a github.com remote, with or without [.git] and
    with or without a final slash, normalises to
    [https://github.com/<org>/<repo>]; [<repo>] is the name without the
    optional [.git], so in the forms without [.git] it does not end in
    [.git] itself.  A string the pattern does not match gives no URL. *)
Theorem C6_normalizeGitHubUrl_raw_forms :
  (forall org repo,
      segment org = true ->
      segment repo = true ->
      (endsWith ".git" repo = false ->
         normalizeGitHubUrl ("https://github.com/" ++ org ++ "/" ++ repo)
         = Some ("https://github.com/" ++ org ++ "/" ++ repo))
      /\ normalizeGitHubUrl ("https://github.com/" ++ org ++ "/" ++ repo ++ ".git")
         = Some ("https://github.com/" ++ org ++ "/" ++ repo)
      /\ normalizeGitHubUrl ("git@github.com:" ++ org ++ "/" ++ repo ++ ".git")
         = Some ("https://github.com/" ++ org ++ "/" ++ repo)
      /\ normalizeGitHubUrl ("ssh://git@github.com/" ++ org ++ "/" ++ repo ++ ".git")
         = Some ("https://github.com/" ++ org ++ "/" ++ repo)
      /\ forall form dotgit slash,
           (dotgit = false -> endsWith ".git" repo = false) ->
           normalizeGitHubUrl (raw_url form org repo dotgit slash)
           = Some ("https://github.com/" ++ org ++ "/" ++ repo))
  /\ normalizeGitHubUrl "git@github.com:acme/widgets.git"
     = Some "https://github.com/acme/widgets"
  /\ (forall url, search re_repository url = None -> normalizeGitHubUrl url = None)
  /\ normalizeGitHubUrl "https://github.com/acme" = None
  /\ normalizeGitHubUrl "" = None.
Proof.
  split; [|split; [vm_compute; reflexivity | split; [|split; reflexivity]]].
  - intros org repo Horg Hrepo. split; [|split; [|split; [|split]]].
    + intros Hgit. change ("https://github.com/" ++ org ++ "/" ++ repo)
        with (canonical_url org repo).
      rewrite canonical_is_raw at 1. now apply normalize_raw_url.
    + apply (normalize_raw_url Https org repo true false Horg Hrepo). discriminate.
    + apply (normalize_raw_url Scp org repo true false Horg Hrepo). discriminate.
    + apply (normalize_raw_url Ssh org repo true false Horg Hrepo). discriminate.
    + intros form dotgit slash Hgit. now apply normalize_raw_url.
  - intros url H. unfold normalizeGitHubUrl. rewrite H.
    destruct (negb (truthy url)); reflexivity.
Qed.

Lemma C6_normalizeGitHubUrl_raw_forms_witness :
  normalizeGitHubUrl "https://github.com/acme/widgets"
  = Some "https://github.com/acme/widgets"
  /\ normalizeGitHubUrl "ssh://git@github.com/acme/widgets.git"
     = Some "https://github.com/acme/widgets".
Proof.
  assert (Ho : segment "acme" = true) by reflexivity.
  assert (Hr : segment "widgets" = true) by reflexivity.
  destruct (proj1 C6_normalizeGitHubUrl_raw_forms "acme" "widgets" Ho Hr)
    as (H1 & _ & _ & H4 & _).
  split.
  - apply H1. reflexivity.
  - exact H4.
Defined.

(** C7, as amended.  Normalisation leaves a normal form
    [https://github.com/<org>/<repo>] unchanged when [<repo>] does not end in
    [.git]; and whenever it succeeds with a result that does not end in
    [.git], normalising the result again changes nothing. *)
Theorem C7_normalizeGitHubUrl_idempotent :
  (forall org repo,
      segment org = true ->
      segment repo = true ->
      endsWith ".git" repo = false ->
      normalizeGitHubUrl ("https://github.com/" ++ org ++ "/" ++ repo)
      = Some ("https://github.com/" ++ org ++ "/" ++ repo))
  /\ (forall url normalized,
         normalizeGitHubUrl url = Some normalized ->
         endsWith ".git" normalized = false ->
         normalizeGitHubUrl normalized = Some normalized).
Proof.
  assert (H1 : forall org repo,
             segment org = true -> segment repo = true ->
             endsWith ".git" repo = false ->
             normalizeGitHubUrl (canonical_url org repo)
             = Some (canonical_url org repo)).
  { intros org repo Horg Hrepo Hgit.
    rewrite canonical_is_raw at 1. now apply normalize_raw_url. }
  split; [exact H1|].
  intros url normalized Hn Hgit.
  destruct (normalize_shape _ _ Hn) as (org & repo & Horg & Hrepo & ->).
  apply H1; [exact Horg | exact Hrepo |].
  destruct (endsWith ".git" repo) eqn:E; [|reflexivity].
  unfold canonical_url in Hgit.
  rewrite <- !append_assoc in Hgit.
  rewrite (endsWith_suffix ".git" _ repo E) in Hgit. discriminate.
Qed.

Lemma C7_normalizeGitHubUrl_idempotent_witness :
  normalizeGitHubUrl "https://github.com/acme/widgets"
  = Some "https://github.com/acme/widgets"
  /\ normalizeGitHubUrl "https://github.com/acme/widgets"
     = Some "https://github.com/acme/widgets".
Proof.
  split.
  - apply (proj1 C7_normalizeGitHubUrl_idempotent "acme" "widgets"); reflexivity.
  - apply (proj2 C7_normalizeGitHubUrl_idempotent
             "git@github.com:acme/widgets.git" "https://github.com/acme/widgets").
    + vm_compute. reflexivity.
    + reflexivity.
Defined.

(** C7 as stated fails: a normal form whose repository segment ends in
    [.git] loses the suffix when it is normalised again. *)
Lemma C7_git_suffix_stripped_again :
  segment "acme" = true /\ segment "widgets.git" = true
  /\ normalizeGitHubUrl "https://github.com/acme/widgets.git.git"
     = Some "https://github.com/acme/widgets.git"
  /\ normalizeGitHubUrl "https://github.com/acme/widgets.git"
     = Some "https://github.com/acme/widgets"
  /\ normalizeGitHubUrl "https://github.com/acme/widgets.git"
     <> Some "https://github.com/acme/widgets.git".
Proof.
  repeat split; try (vm_compute; reflexivity).
  vm_compute. discriminate.
Qed.

(** ** Relative paths *)

Section PathFacts.

Lemma replaceAll_absent (c d : ascii) (s : string) :
  c <> d -> has_char c (replaceAll c d s) = false.
Proof.
  intros Hcd. induction s as [|a s IH]; simpl; [reflexivity|].
  rewrite IH, orb_false_r.
  destruct (Ascii.eqb_spec a c) as [->|Hac].
  - apply Ascii.eqb_neq. congruence.
  - now apply Ascii.eqb_neq.
Qed.

Lemma join_cons (sep w w' : string) (ws : list string) :
  join sep (w :: w' :: ws) = w ++ sep ++ join sep (w' :: ws).
Proof. reflexivity. Qed.

Lemma split_no_sep (sep : ascii) (s : string) :
  Forall (fun w => has_char sep w = false) (split sep s).
Proof.
  induction s as [|a s IH]; simpl.
  - constructor; [reflexivity | constructor].
  - destruct (Ascii.eqb a sep) eqn:Ha.
    + constructor; [reflexivity | exact IH].
    + destruct (split sep s) as [|w ws].
      * constructor; [simpl; now rewrite Ha | constructor].
      * inversion IH; subst. constructor; [simpl; now rewrite Ha | assumption].
Qed.

Lemma split_plain (sep : ascii) (w : string) :
  has_char sep w = false -> split sep w = [w].
Proof.
  induction w as [|a w IH]; simpl; [reflexivity|].
  intros H. apply orb_false_elim in H. destruct H as [Ha Hw].
  now rewrite Ha, (IH Hw).
Qed.

Lemma split_append (sep : ascii) (w s : string) :
  has_char sep w = false ->
  split sep (w ++ String sep s) = w :: split sep s.
Proof.
  induction w as [|a w IH]; simpl.
  - intros _. now rewrite Ascii.eqb_refl.
  - intros H. apply orb_false_elim in H. destruct H as [Ha Hw].
    now rewrite Ha, (IH Hw).
Qed.

End PathFacts.

(** C8.  On every host the result of [getRelativePath] has no backslash.
    It is not always the path relative to the root, though.  On a POSIX
    host a file name may contain a backslash: for the file [\x] under the
    root [/r], [path.relative] gives [\x] and [getRelativePath] gives [/x],
    which starts with a slash; for the file [..\x] it gives [../x], which
    has a [..] segment. *)
Theorem C8_getRelativePath_backslash_name :
  (forall path_relative filePath gitRoot,
      has_char "\" (getRelativePath path_relative filePath gitRoot) = false)
  /\ lies_under "/" "/r" "/r/\x" ["\x"]
  /\ Path.relative "/" "/r" "/r/\x" = "\x"
  /\ getRelativePath (Path.relative "/") "/r/\x" "/r" = "/x"
  /\ startsWith "/" (getRelativePath (Path.relative "/") "/r/\x" "/r") = true
  /\ lies_under "/" "/r" "/r/..\x" ["..\x"]
  /\ Path.relative "/" "/r" "/r/..\x" = "..\x"
  /\ getRelativePath (Path.relative "/") "/r/..\x" "/r" = "../x"
  /\ In ".." (split "/" (getRelativePath (Path.relative "/") "/r/..\x" "/r")).
Proof.
  split.
  - intros. unfold getRelativePath. apply replaceAll_absent. discriminate.
  - repeat split; try reflexivity.
    vm_compute. left. reflexivity.
Qed.

(* ================================================================== *)
(** * Further properties of the helpers *)
(* ================================================================== *)

(** ** References with the commit flag *)

(** X1.  With [useCommitHash] the only query is [git rev-parse HEAD]: its
    trimmed output is the reference, and its failure is the failure of
    [getGitRef].  In a detached HEAD the flag makes no difference to the
    result. *)
Theorem getGitRef_commit_flag :
  forall (gitRoot : string) (sh : Shell),
    queries (getGitRef gitRoot true) sh = ["git rev-parse HEAD"]
    /\ result (getGitRef gitRoot true) sh
       = match sh "git rev-parse HEAD" gitRoot with
         | Some commit => Return (trim commit)
         | None => Throw (Error "Failed to get git reference")
         end
    /\ (no_branch sh gitRoot ->
        result (getGitRef gitRoot false) sh = result (getGitRef gitRoot true) sh).
Proof.
  intros gitRoot sh.
  assert (E : result (getGitRef gitRoot true) sh
              = match sh "git rev-parse HEAD" gitRoot with
                | Some commit => Return (trim commit)
                | None => Throw (Error "Failed to get git reference")
                end).
  { unfold result, getGitRef, try_catch, bind, execAsync, ret, throw, after.
    destruct (sh "git rev-parse HEAD" gitRoot); reflexivity. }
  split; [|split; [exact E|]].
  - unfold queries, getGitRef, try_catch, bind, execAsync, ret, throw, after.
    destruct (sh "git rev-parse HEAD" gitRoot); reflexivity.
  - intros Hb. rewrite E, getGitRef_run.
    destruct Hb as [Hb | (stdout & Hb & Hblank)]; rewrite Hb; [reflexivity|].
    rewrite Hblank. reflexivity.
Qed.

Lemma getGitRef_commit_flag_witness :
  result (getGitRef "/repo" false)
    (branch_shell "
" "abcdef1234abcdef1234abcdef1234abcdef1234
")
  = result (getGitRef "/repo" true)
      (branch_shell "
" "abcdef1234abcdef1234abcdef1234abcdef1234
").
Proof.
  apply (proj2 (proj2 (getGitRef_commit_flag "/repo" _))).
  right. exists "
". split; reflexivity.
Defined.

(** ** Failures of git are swallowed *)

Section NoThrow.

Lemma try_catch_default {A} (m : Git A) (a : A) (sh : Shell) :
  exists v, result (try_catch m (fun _ => ret a)) sh = Return v.
Proof.
  unfold result, try_catch, ret, after.
  destruct (m sh) as [[v|e] log]; simpl; eauto.
Qed.

Lemma firstGitHubRemote_returns (gitRoot : string) (sh : Shell) :
  forall remotes, exists v,
    result (firstGitHubRemote gitRoot remotes) sh = Return v.
Proof.
  unfold result. induction remotes as [|r rest IH]; simpl.
  - eauto.
  - unfold bind. rewrite getRemoteUrl_run.
    destruct (githubRemote _); simpl; eauto.
Qed.

Lemma fromRemotes_returns (gitRoot : string) (sh : Shell) :
  exists v, result (fromRemotes gitRoot) sh = Return v.
Proof.
  unfold result. rewrite fromRemotes_run. unfold after at 1. simpl fst.
  destruct (recognizedRemote sh gitRoot "upstream"); [simpl; eauto|].
  unfold after at 1. simpl fst.
  destruct (recognizedRemote sh gitRoot "origin"); [simpl; eauto|].
  unfold bind. rewrite getAllRemotes_run. unfold after. simpl fst.
  apply firstGitHubRemote_returns.
Qed.

Lemma getGitHubRepositoryUrl_returns (gitRoot : string)
    (config : string -> option string) (sh : Shell) :
  exists v, result (getGitHubRepositoryUrl gitRoot config) sh = Return v.
Proof.
  unfold getGitHubRepositoryUrl.
  destruct (truthy_value (config "repositoryUrl")).
  - eexists. reflexivity.
  - apply fromRemotes_returns.
Qed.

End NoThrow.

(** X2.  Whatever the shell answers, [getGitRoot], [getRemoteUrl],
    [getAllRemotes], [getGitHubRepositoryUrl], [getCommitHashFromBlame] and
    [getPRNumberFromCommit] never throw, and when the git command of a
    helper fails its result is [null], or the empty list for
    [getAllRemotes]; [getGitHubRepositoryUrl] gives [null] when no URL is
    configured and every git command fails. *)
Theorem helpers_never_throw :
  forall (sh : Shell) (gitRoot : string),
    (forall path_dirname filePath,
        (exists v, result (getGitRoot path_dirname filePath) sh = Return v)
        /\ (sh "git rev-parse --show-toplevel" (path_dirname filePath) = None ->
            result (getGitRoot path_dirname filePath) sh = Return None))
    /\ (forall remoteName,
           (exists v, result (getRemoteUrl gitRoot remoteName) sh = Return v)
           /\ (sh ("git remote get-url " ++ remoteName) gitRoot = None ->
               result (getRemoteUrl gitRoot remoteName) sh = Return None))
    /\ ((exists v, result (getAllRemotes gitRoot) sh = Return v)
        /\ (sh "git remote" gitRoot = None ->
            result (getAllRemotes gitRoot) sh = Return []))
    /\ (forall config,
           (exists v, result (getGitHubRepositoryUrl gitRoot config) sh = Return v)
           /\ (truthy_value (config "repositoryUrl") = false ->
               (forall command, sh command gitRoot = None) ->
               result (getGitHubRepositoryUrl gitRoot config) sh = Return None))
    /\ (forall path_relative filePath lineNumber,
           (exists v,
               result (getCommitHashFromBlame path_relative gitRoot filePath lineNumber) sh
               = Return v)
           /\ (safe_integer lineNumber ->
               sh ("git blame -L " ++ Number_toString lineNumber ++ ","
                     ++ Number_toString lineNumber ++ " --porcelain "
                     ++ dquote ++ getRelativePath path_relative filePath gitRoot
                     ++ dquote) gitRoot = None ->
               result (getCommitHashFromBlame path_relative gitRoot filePath lineNumber) sh
               = Return None))
    /\ (forall commitHash,
           (exists v, result (getPRNumberFromCommit gitRoot commitHash) sh = Return v)
           /\ (sh ("git log -1 --format=%B " ++ commitHash) gitRoot = None ->
               result (getPRNumberFromCommit gitRoot commitHash) sh = Return None)).
Proof.
  intros sh gitRoot.
  split; [|split; [|split; [|split; [|split]]]].
  - intros path_dirname filePath. split; [apply try_catch_default|].
    intros H. unfold result, getGitRoot, try_catch, bind, execAsync, ret, after.
    rewrite H. reflexivity.
  - intros remoteName. split; [apply try_catch_default|].
    intros H. unfold result, getRemoteUrl, try_catch, bind, execAsync, ret, after.
    rewrite H. reflexivity.
  - split; [apply try_catch_default|].
    intros H. unfold result, getAllRemotes, try_catch, bind, execAsync, ret, after.
    rewrite H. reflexivity.
  - intros config. split; [apply getGitHubRepositoryUrl_returns|].
    intros Hc Hsh. unfold getGitHubRepositoryUrl. rewrite Hc.
    unfold result. rewrite fromRemotes_run.
    unfold recognizedRemote. rewrite !Hsh.
    unfold bind. rewrite getAllRemotes_run. unfold remoteNames. rewrite Hsh.
    reflexivity.
  - intros path_relative filePath lineNumber. split; [apply try_catch_default|].
    intros _ H.
    unfold result, getCommitHashFromBlame, try_catch, bind, execAsync, ret, after.
    cbv zeta. rewrite H. reflexivity.
  - intros commitHash. split; [apply try_catch_default|].
    intros H.
    unfold result, getPRNumberFromCommit, try_catch, bind, execAsync, ret, after.
    rewrite H. reflexivity.
Qed.

Lemma helpers_never_throw_witness :
  result (getGitHubRepositoryUrl "/tmp" (fun _ => None)) no_git = Return None.
Proof.
  apply (proj2 (proj1 (proj2 (proj2 (proj2 (helpers_never_throw no_git "/tmp"))))
                  (fun _ => None))).
  - reflexivity.
  - reflexivity.
Defined.

(** ** Origin and the other remotes *)

Section Enumeration.

Variables (gitRoot : string) (sh : Shell).

Lemma firstGitHubRemote_found (pre : list string) (r : string) (post : list string)
    (normalized : string) :
  Forall (fun name => recognizedRemote sh gitRoot name = None) pre ->
  recognizedRemote sh gitRoot r = Some normalized ->
  firstGitHubRemote gitRoot (pre ++ r :: post)%list sh
  = (Return (Some normalized), map (get_url gitRoot) (pre ++ [r])%list).
Proof.
  intros Hpre Hr. induction pre as [|x pre IH]; simpl.
  - unfold bind. rewrite getRemoteUrl_run, githubRemote_recognized, Hr.
    reflexivity.
  - inversion Hpre as [|? ? Hx Hpre']; subst.
    unfold bind. rewrite getRemoteUrl_run, githubRemote_recognized, Hx.
    rewrite (IH Hpre'). reflexivity.
Qed.

Lemma firstGitHubRemote_none (names : list string) :
  Forall (fun name => recognizedRemote sh gitRoot name = None) names ->
  firstGitHubRemote gitRoot names sh = (Return None, map (get_url gitRoot) names).
Proof.
  intros H. induction names as [|x names IH]; simpl.
  - reflexivity.
  - inversion H as [|? ? Hx H']; subst.
    unfold bind. rewrite getRemoteUrl_run, githubRemote_recognized, Hx.
    rewrite (IH H'). reflexivity.
Qed.

Lemma firstGitHubRemote_some (names : list string) (url : string) :
  result (firstGitHubRemote gitRoot names) sh = Return (Some url) ->
  exists name, In name names /\ recognizedRemote sh gitRoot name = Some url.
Proof.
  unfold result. induction names as [|x names IH]; simpl.
  - discriminate.
  - unfold bind. rewrite getRemoteUrl_run, githubRemote_recognized.
    destruct (recognizedRemote sh gitRoot x) as [n|] eqn:Hx; simpl.
    + intros [= <-]. exists x. auto.
    + intros H. destruct (IH H) as (name & Hin & Hn). exists name. auto.
Qed.

Lemma fromRemotes_some (url : string) :
  result (fromRemotes gitRoot) sh = Return (Some url) ->
  exists name, recognizedRemote sh gitRoot name = Some url.
Proof.
  unfold result. rewrite fromRemotes_run. unfold after at 1. simpl fst.
  destruct (recognizedRemote sh gitRoot "upstream") as [n|] eqn:Hup.
  { simpl. intros [= <-]. eauto. }
  unfold after at 1. simpl fst.
  destruct (recognizedRemote sh gitRoot "origin") as [n|] eqn:Hor.
  { simpl. intros [= <-]. eauto. }
  unfold bind. rewrite getAllRemotes_run. unfold after. simpl fst.
  intros H. apply firstGitHubRemote_some in H.
  destruct H as (name & _ & H). eauto.
Qed.

Lemma config_falsy (config : string -> option string) :
  truthy_value (config "repositoryUrl") = false ->
  getGitHubRepositoryUrl gitRoot config = fromRemotes gitRoot.
Proof. intros H. unfold getGitHubRepositoryUrl. now rewrite H. Qed.

End Enumeration.

(** X3.  Without a usable setting and without a recognised [upstream], a
    recognised [origin] is the result, normalised, after exactly the two
    queries for [upstream] and [origin]. *)
Theorem origin_after_upstream :
  forall (gitRoot : string) (config : string -> option string) (sh : Shell)
         (normalized : string),
    truthy_value (config "repositoryUrl") = false ->
    recognizedRemote sh gitRoot "upstream" = None ->
    recognizedRemote sh gitRoot "origin" = Some normalized ->
    result (getGitHubRepositoryUrl gitRoot config) sh = Return (Some normalized)
    /\ queries (getGitHubRepositoryUrl gitRoot config) sh
       = ["git remote get-url upstream"; "git remote get-url origin"].
Proof.
  intros gitRoot config sh normalized Hcfg Hup Hor.
  rewrite (config_falsy _ _ Hcfg). unfold result, queries.
  rewrite fromRemotes_run, Hup, Hor. split; reflexivity.
Qed.

Lemma origin_after_upstream_witness :
  result (getGitHubRepositoryUrl "/repo" (fun _ => None))
    (fun command _ =>
       if String.eqb command "git remote get-url origin"
       then Some "git@github.com:acme/fork.git
" else None)
  = Return (Some "https://github.com/acme/fork")
  /\ queries (getGitHubRepositoryUrl "/repo" (fun _ => None))
       (fun command _ =>
          if String.eqb command "git remote get-url origin"
          then Some "git@github.com:acme/fork.git
" else None)
     = ["git remote get-url upstream"; "git remote get-url origin"].
Proof.
  apply origin_after_upstream.
  - reflexivity.
  - reflexivity.
  - vm_compute. reflexivity.
Defined.

(** X4.  When neither [upstream] nor [origin] is recognised, the remotes are
    listed and asked in the listed order up to the first one that is
    recognised: that one is the result, and no remote after it is asked. *)
Theorem first_listed_remote_wins :
  forall (gitRoot : string) (config : string -> option string) (sh : Shell)
         (pre : list string) (r : string) (post : list string)
         (normalized : string),
    truthy_value (config "repositoryUrl") = false ->
    recognizedRemote sh gitRoot "upstream" = None ->
    recognizedRemote sh gitRoot "origin" = None ->
    remoteNames sh gitRoot = (pre ++ r :: post)%list ->
    Forall (fun name => recognizedRemote sh gitRoot name = None) pre ->
    recognizedRemote sh gitRoot r = Some normalized ->
    result (getGitHubRepositoryUrl gitRoot config) sh = Return (Some normalized)
    /\ queries (getGitHubRepositoryUrl gitRoot config) sh
       = "git remote get-url upstream" :: "git remote get-url origin"
           :: "git remote"
           :: map (fun name => "git remote get-url " ++ name) (pre ++ [r])%list.
Proof.
  intros gitRoot config sh pre r post normalized Hcfg Hup Hor Hnames Hpre Hr.
  rewrite (config_falsy _ _ Hcfg). unfold result, queries.
  rewrite fromRemotes_run, Hup, Hor. unfold bind.
  rewrite getAllRemotes_run, Hnames.
  rewrite (firstGitHubRemote_found gitRoot sh pre r post normalized Hpre Hr).
  unfold after. simpl. rewrite map_map. split; reflexivity.
Qed.

Lemma first_listed_remote_wins_witness :
  result (getGitHubRepositoryUrl "/repo" (fun _ => None))
    (fun command _ =>
       if String.eqb command "git remote"
       then Some "gitlab
github
mirror
"
       else if String.eqb command "git remote get-url gitlab"
       then Some "https://gitlab.com/acme/widgets.git"
       else if String.eqb command "git remote get-url github"
       then Some "ssh://git@github.com/acme/widgets.git"
       else if String.eqb command "git remote get-url mirror"
       then Some "https://github.com/mirror/widgets"
       else None)
  = Return (Some "https://github.com/acme/widgets").
Proof.
  apply (first_listed_remote_wins "/repo" (fun _ => None) _
           ["gitlab"] "github" ["mirror"] "https://github.com/acme/widgets").
  - reflexivity.
  - reflexivity.
  - reflexivity.
  - vm_compute. reflexivity.
  - repeat constructor.
  - vm_compute. reflexivity.
Defined.

(** X5.  Without a usable setting, a URL is returned only if it is the normal
    form [https://github.com/<org>/<repo>] of the URL of some remote; and
    when no remote is recognised, not [upstream], not [origin] and none of
    the listed ones, the result is [null]. *)
Theorem result_comes_from_a_remote :
  forall (gitRoot : string) (config : string -> option string) (sh : Shell),
    truthy_value (config "repositoryUrl") = false ->
    (forall url,
        result (getGitHubRepositoryUrl gitRoot config) sh = Return (Some url) ->
        exists name org repo,
          recognizedRemote sh gitRoot name = Some url
          /\ segment org = true /\ segment repo = true
          /\ url = "https://github.com/" ++ org ++ "/" ++ repo)
    /\ (recognizedRemote sh gitRoot "upstream" = None ->
        recognizedRemote sh gitRoot "origin" = None ->
        Forall (fun name => recognizedRemote sh gitRoot name = None)
          (remoteNames sh gitRoot) ->
        result (getGitHubRepositoryUrl gitRoot config) sh = Return None).
Proof.
  intros gitRoot config sh Hcfg. rewrite (config_falsy _ _ Hcfg). split.
  - intros url H. apply fromRemotes_some in H. destruct H as (name & Hn).
    assert (Hs : exists org repo,
               segment org = true /\ segment repo = true
               /\ url = canonical_url org repo).
    { unfold recognizedRemote in Hn.
      destruct (sh _ gitRoot) as [stdout|]; [|discriminate].
      eapply normalize_shape. exact Hn. }
    destruct Hs as (org & repo & Ho & Hr & ->).
    exists name, org, repo. auto.
  - intros Hup Hor Hall. unfold result.
    rewrite fromRemotes_run, Hup, Hor. unfold bind.
    rewrite getAllRemotes_run.
    rewrite (firstGitHubRemote_none gitRoot sh _ Hall). reflexivity.
Qed.

Lemma result_comes_from_a_remote_witness :
  result (getGitHubRepositoryUrl "/repo" (fun _ => Some ""))
    (fun command _ =>
       if String.eqb command "git remote" then Some "origin
"
       else if String.eqb command "git remote get-url origin"
       then Some "https://gitlab.com/acme/widgets.git"
       else None)
  = Return None.
Proof.
  apply (proj2 (result_comes_from_a_remote "/repo" (fun _ => Some "") _
                  (eq_refl _))).
  - reflexivity.
  - reflexivity.
  - vm_compute. repeat constructor.
Defined.

(** ** The host marker *)

Section Marker.

Lemma search_found (r : regex) (suf : string) (m : captures) :
  rmatch r suf [] accept = Some m ->
  forall pre, exists m', search r (pre ++ suf) = Some m'.
Proof.
  intros H. induction pre as [|a pre IH].
  - exists m. now apply search_here.
  - cbn [append]. simpl search.
    destruct (rmatch r (String a (pre ++ suf)) [] accept); eauto.
Qed.

Lemma truthy_append (s t : string) : truthy t = true -> truthy (s ++ t) = true.
Proof. destruct s; simpl; auto. Qed.

End Marker.

(** X6.  [isGitHubUrl] holds exactly of the strings that contain [github.com],
    in lower case, anywhere; a URL without it is never normalised and never
    taken from a remote. *)
Theorem isGitHubUrl_contains_marker :
  forall url : string,
    (isGitHubUrl url = true <-> exists pre post, url = pre ++ "github.com" ++ post)
    /\ (isGitHubUrl url = false ->
        normalizeGitHubUrl url = None /\ githubRemote (Some url) = None).
Proof.
  intros url. split; [split|].
  - unfold isGitHubUrl, test.
    destruct (truthy url); cbn [negb]; [|discriminate].
    destruct (search re_github url) as [m|] eqn:E; [|discriminate].
    intros _. apply search_inv in E. destruct E as (pre & suf & -> & E).
    unfold re_github in E.
    apply rmatch_Lit_inv in E. destruct E as (post & -> & _).
    exists pre, post. reflexivity.
  - intros (pre & post & ->). unfold isGitHubUrl, test.
    rewrite truthy_append by reflexivity. cbn [negb].
    destruct (search_found re_github ("github.com" ++ post) []
                (rmatch_Lit "github.com" post [] accept) pre) as [m ->].
    reflexivity.
  - intros H.
    assert (Hn : normalizeGitHubUrl url = None).
    { destruct (normalizeGitHubUrl url) as [n|] eqn:E; [|reflexivity].
      apply normalize_isGitHubUrl in E. destruct E as (_ & E & _). congruence. }
    split; [exact Hn|]. rewrite githubRemote_normalize. exact Hn.
Qed.

Lemma isGitHubUrl_contains_marker_witness :
  isGitHubUrl "git@github.com:acme/widgets.git" = true
  /\ normalizeGitHubUrl "https://GitHub.com/acme/widgets" = None.
Proof.
  split.
  - apply (proj1 (isGitHubUrl_contains_marker _)).
    exists "git@", ":acme/widgets.git". reflexivity.
  - apply (proj2 (isGitHubUrl_contains_marker _)). reflexivity.
Defined.

(** ** Organisation and repository *)

Section OrgAndRepo.

Lemma endsWith_inv (p : string) :
  forall s, endsWith p s = true -> exists stem, s = stem ++ p.
Proof.
  induction s as [|a s IH]; cbn [endsWith]; intros H.
  - rewrite orb_false_r in H. apply String.eqb_eq in H. exists "". now subst.
  - apply orb_prop in H. destruct H as [H|H].
    + apply String.eqb_eq in H. exists "". now rewrite H.
    + destruct (IH H) as (stem & ->). exists (String a stem). reflexivity.
Qed.

(** [re_org_repo_matches], for a repository name that may be [.git]
    itself. *)
Lemma re_org_repo_matches_stem (o r : string) (dotgit slash : bool) (c : captures) :
  segment o = true ->
  segment r = true ->
  (dotgit = false -> forall stem, stem <> "" -> r <> stem ++ ".git") ->
  rmatch re_org_repo (o ++ "/" ++ r ++ raw_tail dotgit slash) c accept
  = Some ((2, r) :: (1, o) :: c).
Proof.
  intros Horg Hrepo Hgit.
  destruct (segment_cons _ Horg) as (a & org' & -> & Ha & Horg').
  destruct (segment_cons _ Hrepo) as (b & repo' & -> & Hb & Hrepo').
  unfold re_org_repo. rewrite rmatch_Seq, rmatch_Group.
  cbn [append]. rewrite rmatch_Plus by exact Ha.
  apply star_greedy_run; [reflexivity | | exact Horg' | lia].
  change (String a (org' ++ String "/" (String b (repo' ++ raw_tail dotgit slash))))
    with (String a org' ++ String "/" (String b (repo' ++ raw_tail dotgit slash))).
  rewrite substring_prefix.
  rewrite rmatch_Seq, rmatch_chr, rmatch_Seq, rmatch_Group.
  rewrite rmatch_Plus by exact Hb.
  apply star_lazy_run; [ | exact Hrepo' | lia | ].
  - change (String b (repo' ++ raw_tail dotgit slash))
      with (String b repo' ++ raw_tail dotgit slash).
    rewrite substring_prefix. apply re_tail_accepts.
  - intros r1 r2 E Hne.
    match goal with |- ?lhs = None => destruct lhs as [m|] eqn:Hm end;
      [exfalso | reflexivity].
    apply re_tail_inv in Hm. destruct Hm as [_ Ht].
    apply (suffix_not_tail r2 dotgit slash (r2 ++ raw_tail dotgit slash));
      [exact Hne | | | exact Ht | reflexivity].
    + rewrite E, all_chars_append in Hrepo'.
      apply andb_prop in Hrepo'. tauto.
    + intros Hd Hr2. subst r2 repo'.
      apply (Hgit Hd (String b r1)); [discriminate | reflexivity].
Qed.

Lemma search_canonical_stem (o r : string) (dotgit : bool) :
  segment o = true ->
  segment r = true ->
  (dotgit = false -> forall stem, stem <> "" -> r <> stem ++ ".git") ->
  search re_repository (raw_url Https o r dotgit false) = Some [(2, r); (1, o)].
Proof.
  intros Horg Hrepo Hgit.
  pose proof (re_org_repo_matches_stem o r dotgit false [] Horg Hrepo Hgit) as H.
  unfold raw_url. cbn [raw_prefix raw_separator append] in *.
  do 8 (rewrite search_next by reflexivity).
  apply search_here. unfold re_repository.
  rewrite rmatch_Seq, rmatch_github, rmatch_Seq, rmatch_Class. exact H.
Qed.

(** What the repository pattern captures, wherever it matches. *)
Lemma search_repository_shape (url : string) (m : captures) :
  search re_repository url = Some m ->
  exists o r, segment o = true /\ segment r = true /\ m = [(2, r); (1, o)].
Proof.
  intros Hm. apply search_inv in Hm. destruct Hm as (pre & suf & _ & Hm).
  unfold re_repository in Hm. rewrite rmatch_Seq in Hm.
  apply rmatch_Lit_inv in Hm. destruct Hm as (s1 & _ & Hm).
  rewrite rmatch_Seq in Hm. destruct s1 as [|x s2]; [discriminate|].
  rewrite rmatch_Class in Hm. destruct (colon_or_slash x); [|discriminate].
  apply re_org_repo_inv in Hm. exact Hm.
Qed.

(** The pattern matches every normal form, and strips a final [.git] of the
    repository segment when something comes before it. *)
Lemma search_canonical (o r : string) :
  segment o = true ->
  segment r = true ->
  exists r',
    segment r' = true
    /\ search re_repository (canonical_url o r) = Some [(2, r'); (1, o)]
    /\ (r = r' \/ r = r' ++ ".git").
Proof.
  intros Ho Hr.
  destruct (endsWith ".git" r) eqn:E.
  - apply endsWith_inv in E. destruct E as (stem & ->).
    destruct stem as [|a stem].
    + exists ".git". split; [reflexivity|]. split; [|auto].
      rewrite canonical_is_raw. apply search_canonical_stem; [exact Ho | reflexivity |].
      intros _ stem Hne H. apply (f_equal String.length) in H.
      rewrite length_append in H. simpl in H.
      destruct stem; [congruence | simpl in H; lia].
    + assert (Hs : segment (String a stem) = true).
      { unfold segment in Hr. cbn [append truthy all_chars andb] in Hr.
        apply andb_prop in Hr. destruct Hr as [Ha Hall].
        rewrite all_chars_append in Hall. apply andb_prop in Hall.
        destruct Hall as [Hstem _].
        unfold segment. cbn [truthy all_chars andb]. now rewrite Ha, Hstem. }
      exists (String a stem). split; [exact Hs|]. split; [|auto].
      change (canonical_url o (String a stem ++ ".git"))
        with (raw_url Https o (String a stem) true false).
      apply search_canonical_stem; [exact Ho | exact Hs | discriminate].
  - exists r. split; [exact Hr|]. split; [|auto].
    rewrite canonical_is_raw. apply search_raw_url; auto.
Qed.

End OrgAndRepo.

(** X7.  [extractOrgAndRepo] agrees with [normalizeGitHubUrl]: on a URL that is
    normalised it finds the organisation and the repository of the normal
    form; and it accepts every normal form, where it finds the same
    organisation and the same repository, without a final [.git]. *)
Theorem extractOrgAndRepo_of_normalized :
  forall url normalized : string,
    normalizeGitHubUrl url = Some normalized ->
    (exists o r,
        extractOrgAndRepo url = Some {| org := Some o; repo := Some r |}
        /\ normalized = "https://github.com/" ++ o ++ "/" ++ r)
    /\ (exists o r,
           extractOrgAndRepo normalized = Some {| org := Some o; repo := Some r |}
           /\ segment o = true /\ segment r = true
           /\ (normalized = "https://github.com/" ++ o ++ "/" ++ r
               \/ normalized = "https://github.com/" ++ o ++ "/" ++ r ++ ".git")).
Proof.
  intros url normalized Hn. split.
  - unfold normalizeGitHubUrl in Hn. unfold extractOrgAndRepo.
    destruct (negb (truthy url)); [discriminate|].
    destruct (search re_repository url) as [m|] eqn:Hm; [|discriminate].
    destruct (search_repository_shape _ _ Hm) as (o & r & _ & _ & ->).
    injection Hn as <-. exists o, r. split; reflexivity.
  - destruct (normalize_shape _ _ Hn) as (o & r & Ho & Hr & ->).
    destruct (search_canonical o r Ho Hr) as (r' & Hr' & Hs & Hrr).
    exists o, r'. unfold extractOrgAndRepo. rewrite Hs.
    split; [reflexivity|]. split; [exact Ho|]. split; [exact Hr'|].
    unfold canonical_url. destruct Hrr as [-> | ->]; auto.
Qed.

Lemma extractOrgAndRepo_of_normalized_witness :
  exists o r,
    extractOrgAndRepo "git@github.com:acme/widgets.git"
    = Some {| org := Some o; repo := Some r |}
    /\ "https://github.com/acme/widgets" = "https://github.com/" ++ o ++ "/" ++ r.
Proof.
  apply (proj1 (extractOrgAndRepo_of_normalized
                  "git@github.com:acme/widgets.git"
                  "https://github.com/acme/widgets" (eq_refl _))).
Defined.

(** ** The commit of a line *)

Section BlameFacts.

Variable p : ascii -> bool.

Lemma rmatch_Times (n : nat) :
  forall run rest c k,
    String.length run = n ->
    all_chars p run = true ->
    rmatch (Times n (Class p)) (run ++ rest) c k = k rest c.
Proof.
  induction n as [|n IH]; intros run rest c k Hlen Hall.
  - destruct run; [reflexivity | discriminate].
  - destruct run as [|a run]; [discriminate|].
    simpl in Hall. apply andb_prop in Hall. destruct Hall as [Ha Hall].
    cbn [Times append]. rewrite rmatch_Seq, rmatch_Class, Ha.
    apply IH; [simpl in Hlen; lia | exact Hall].
Qed.

Lemma rmatch_Times_inv (n : nat) :
  forall s c k m,
    rmatch (Times n (Class p)) s c k = Some m ->
    exists run rest,
      s = run ++ rest /\ String.length run = n /\ all_chars p run = true
      /\ k rest c = Some m.
Proof.
  induction n as [|n IH]; intros s c k m H.
  - exists "", s. auto.
  - cbn [Times] in H. rewrite rmatch_Seq in H.
    destruct s as [|a s]; [discriminate|].
    rewrite rmatch_Class in H. destruct (p a) eqn:Ha; [|discriminate].
    destruct (IH _ _ _ _ H) as (run & rest & -> & Hlen & Hall & Hk).
    exists (String a run), rest. simpl. rewrite Ha, Hall, Hlen. auto.
Qed.

Lemma split_nonempty (sep : ascii) (s : string) :
  exists line ls, split sep s = line :: ls.
Proof.
  destruct s as [|a s]; simpl; [eauto|].
  destruct (Ascii.eqb a sep); [eauto|].
  destruct (split sep s); eauto.
Qed.

(** A run of [p], which the separator is not part of, starts the first line
    exactly when it starts the text. *)
Lemma first_line_prefix (sep : ascii) :
  p sep = false ->
  forall h s,
    all_chars p h = true ->
    (exists line ls rest, split sep s = line :: ls /\ line = h ++ rest)
    <-> (exists rest, s = h ++ rest).
Proof.
  intros Hsep. induction h as [|x h IH]; intros s Hall.
  - split.
    + intros _. exists s. reflexivity.
    + intros _. destruct (split_nonempty sep s) as (line & ls & E).
      exists line, ls, line. auto.
  - simpl in Hall. apply andb_prop in Hall. destruct Hall as [Hx Hall].
    assert (Hxs : Ascii.eqb x sep = false).
    { apply Ascii.eqb_neq. intros ->. congruence. }
    split.
    + intros (line & ls & rest & E & ->).
      destruct s as [|a s]; [simpl in E; inversion E|].
      simpl in E. destruct (Ascii.eqb a sep); [inversion E|].
      destruct (split_nonempty sep s) as (w & ws & Ew). rewrite Ew in E.
      cbn [append] in E. injection E as -> Hw _.
      destruct (proj1 (IH s Hall)) as (rest' & ->).
      { exists w, ws, rest. auto. }
      exists rest'. reflexivity.
    + intros (rest & ->). cbn [append split]. rewrite Hxs.
      destruct (proj2 (IH (h ++ rest) Hall)) as (line & ls & rest' & E & ->).
      { exists rest. reflexivity. }
      rewrite E. exists (String x (h ++ rest')), ls, rest'. auto.
Qed.

End BlameFacts.

Section HashFacts.

Lemma match_hash (h rest : string) :
  String.length h = 40 ->
  all_chars is_hex h = true ->
  match_start re_hash (h ++ rest) = Some [(1, h)].
Proof.
  intros Hlen Hall. unfold match_start, re_hash.
  rewrite rmatch_Group, (rmatch_Times is_hex 40 h rest) by assumption.
  rewrite substring_prefix. reflexivity.
Qed.

Lemma match_hash_inv (line : string) (m : captures) :
  match_start re_hash line = Some m ->
  exists h rest,
    line = h ++ rest /\ String.length h = 40 /\ all_chars is_hex h = true
    /\ m = [(1, h)].
Proof.
  unfold match_start, re_hash. rewrite rmatch_Group. intros H.
  apply rmatch_Times_inv in H.
  destruct H as (h & rest & -> & Hlen & Hall & H).
  rewrite substring_prefix in H. injection H as <-.
  exists h, rest. auto.
Qed.

End HashFacts.

(** X8.  [getCommitHashFromBlame] runs [git blame -L n,n --porcelain "<path>"] in
    the root.  It returns a commit exactly when the output starts with 40
    lower-case hexadecimal digits, and then these 40 digits; otherwise, and
    when the command fails, it returns [null]. *)
Theorem getCommitHashFromBlame_forty_hex :
  forall (path_relative : string -> string -> string)
         (gitRoot filePath : string) (lineNumber : N) (sh : Shell),
    safe_integer lineNumber ->
    queries (getCommitHashFromBlame path_relative gitRoot filePath lineNumber) sh
    = ["git blame -L " ++ Number_toString lineNumber ++ ","
         ++ Number_toString lineNumber ++ " --porcelain "
         ++ dquote ++ getRelativePath path_relative filePath gitRoot ++ dquote]
    /\ match sh ("git blame -L " ++ Number_toString lineNumber ++ ","
                   ++ Number_toString lineNumber ++ " --porcelain "
                   ++ dquote ++ getRelativePath path_relative filePath gitRoot
                   ++ dquote) gitRoot with
       | None =>
           result (getCommitHashFromBlame path_relative gitRoot filePath lineNumber) sh
           = Return None
       | Some stdout =>
           forall h,
             result (getCommitHashFromBlame path_relative gitRoot filePath lineNumber) sh
             = Return (Some h)
             <-> String.length h = 40 /\ all_chars is_hex h = true
                 /\ exists rest, stdout = h ++ rest
       end.
Proof.
  intros path_relative gitRoot filePath lineNumber sh _.
  unfold queries, result, getCommitHashFromBlame, try_catch, bind, execAsync, after.
  cbv zeta. destruct (sh _ gitRoot) as [stdout|]; [|split; reflexivity].
  destruct (split_nonempty "010" stdout) as (line & ls & E). rewrite E.
  split.
  { destruct (match_start re_hash line); reflexivity. }
  intros h. split.
  - destruct (match_start re_hash line) as [m|] eqn:Hm; simpl; [|discriminate].
    apply match_hash_inv in Hm.
    destruct Hm as (h' & rest & -> & Hlen & Hall & ->). simpl.
    intros [= <-]. split; [exact Hlen|]. split; [exact Hall|].
    apply (first_line_prefix is_hex "010" (eq_refl _) h' stdout Hall).
    exists (h' ++ rest), ls, rest. auto.
  - intros (Hlen & Hall & Hrest).
    apply (first_line_prefix is_hex "010" (eq_refl _) h stdout Hall) in Hrest.
    destruct Hrest as (line' & ls' & rest & E' & ->).
    rewrite E in E'. injection E' as -> _.
    rewrite (match_hash h rest Hlen Hall). reflexivity.
Qed.

Lemma getCommitHashFromBlame_forty_hex_witness :
  result (getCommitHashFromBlame (Path.relative "/") "/repo" "/repo/src/index.ts" 42)
    (fun command _ =>
       if startsWith "git blame -L 42,42 --porcelain " command
       then Some "0123456789abcdef0123456789abcdef01234567 42 42 1
author A U Thor
"
       else None)
  = Return (Some "0123456789abcdef0123456789abcdef01234567").
Proof.
  pose proof (proj2 (getCommitHashFromBlame_forty_hex
                       (Path.relative "/") "/repo" "/repo/src/index.ts" 42
                       (fun command _ =>
                          if startsWith "git blame -L 42,42 --porcelain " command
                          then Some "0123456789abcdef0123456789abcdef01234567 42 42 1
author A U Thor
"
                          else None)
                       ltac:(apply N.ltb_lt; reflexivity))) as H.
  cbv beta in H.
  apply (proj2 (H "0123456789abcdef0123456789abcdef01234567")).
  split; [reflexivity|]. split; [reflexivity|].
  exists " 42 42 1
author A U Thor
". reflexivity.
Defined.

(** ** The number of the change request *)

Section NumberFacts.

(** When a pattern matches, the rest of the pattern accepted what follows
    some prefix of the input. *)
Lemma rmatch_reaches (r : regex) :
  forall s c k m,
    rmatch r s c k = Some m ->
    exists pre s' c', s = pre ++ s' /\ k s' c' = Some m.
Proof.
  induction r as [|p|r1 IH1 r2 IH2|r1 IH1 r2 IH2|g r1 IH1|i r1 IH1|];
    intros s c k m H; cbn [rmatch] in H.
  - exists "", s, c. auto.
  - destruct s as [|a s]; [discriminate|].
    destruct (p a); [|discriminate].
    exists (String a ""), s, c. auto.
  - apply IH1 in H. destruct H as (pre1 & s1 & c1 & -> & H).
    apply IH2 in H. destruct H as (pre2 & s2 & c2 & -> & H).
    exists (pre1 ++ pre2), s2, c2. rewrite append_assoc. auto.
  - destruct (rmatch r1 s c k) as [m1|] eqn:E.
    + injection H as <-. apply IH1 in E. exact E.
    + apply IH2 in H. exact H.
  - remember (S (String.length s)) as fuel eqn:Efuel. clear Efuel.
    revert s c H.
    induction fuel as [|fuel IHf]; intros s c H; [discriminate|].
    cbn [star_loop] in H.
    assert (Hagain :
      rmatch r1 s c
        (fun s' c' =>
           if String.length s' <? String.length s
           then star_loop g (rmatch r1) k fuel s' c' else None) = Some m ->
      exists pre s' c', s = pre ++ s' /\ k s' c' = Some m).
    { intros H'. apply IH1 in H'. destruct H' as (pre1 & s1 & c1 & -> & H').
      destruct (String.length s1 <? String.length (pre1 ++ s1)); [|discriminate].
      apply IHf in H'. destruct H' as (pre2 & s2 & c2 & -> & H').
      exists (pre1 ++ pre2), s2, c2. rewrite append_assoc. auto. }
    destruct g.
    + destruct (rmatch r1 s c _) as [m1|] eqn:E.
      * injection H as <-. apply Hagain. reflexivity.
      * exists "", s, c. auto.
    + destruct (k s c) as [m1|] eqn:E.
      * injection H as <-. exists "", s, c. auto.
      * apply Hagain. exact H.
  - apply IH1 in H. destruct H as (pre & s' & c' & -> & H). eauto.
  - destruct s; [|discriminate]. exists "", "", c. auto.
Qed.

Lemma upper_hash (x : ascii) :
  Ascii.eqb (upper "#") (upper x) = true -> x = "#"%char.
Proof.
  destruct x as [[] [] [] [] [] [] [] []]; vm_compute;
    intros H; solve [reflexivity | discriminate].
Qed.

Lemma star_class_total (p : ascii -> bool) (g : bool) (k : Cont) :
  (forall s c, exists m, k s c = Some m) ->
  forall fuel s c,
    exists m, star_loop g (rmatch (Class p)) k (S fuel) s c = Some m.
Proof.
  intros Hk fuel s c. destruct (Hk s c) as [m0 Hm0].
  destruct s as [|a s].
  - rewrite star_loop_nil. eauto.
  - rewrite star_loop_cons. cbv zeta. rewrite Hm0.
    destruct g; [|eauto].
    destruct (if p a then star_loop true (rmatch (Class p)) k fuel s c else None);
      eauto.
Qed.

(** [#(\d+)] at the end of a pattern captures a run of digits that follows
    a [#]. *)
Lemma re_number_inv (ci : bool) (s : string) (c m : captures) :
  rmatch (re_number ci) s c accept = Some m ->
  exists a ds rest,
    s = "#" ++ String a ds ++ rest
    /\ all_chars is_digit (String a ds) = true
    /\ m = (1, String a ds) :: c.
Proof.
  unfold re_number. rewrite rmatch_Seq. cbn [Lit]. rewrite rmatch_Seq.
  destruct s as [|x s]; [destruct ci; discriminate|].
  intros H.
  assert (Hx : x = "#"%char /\
               rmatch (Group 1 (Plus true (Class is_digit))) s c accept = Some m).
  { destruct ci; unfold chr, chr_i in H; rewrite rmatch_Class in H.
    - destruct (Ascii.eqb (upper "#") (upper x)) eqn:E; [|discriminate].
      apply upper_hash in E. split; [exact E | exact H].
    - destruct (Ascii.eqb_spec "#" x) as [<-|]; [|discriminate].
      split; [reflexivity | exact H]. }
  destruct Hx as [-> H']. clear H.
  rewrite rmatch_Group in H'. apply rmatch_Plus_inv in H'.
  destruct H' as (a & run & rest & -> & Ha & Hrun & H').
  rewrite substring_prefix in H'. unfold accept in H'. injection H' as <-.
  exists a, run, rest. simpl. rewrite Ha, Hrun. auto.
Qed.

Lemma re_number_matches (a : ascii) (s : string) (c : captures) :
  is_digit a = true ->
  exists m, rmatch re_bare (String "#" (String a s)) c accept = Some m.
Proof.
  intros Ha. unfold re_bare, re_number. rewrite rmatch_Seq.
  change (String "#" (String a s)) with ("#" ++ String a s).
  rewrite rmatch_Lit, rmatch_Group, rmatch_Plus by exact Ha.
  apply star_class_total. intros s' c'. unfold accept. eauto.
Qed.

(** Each of the three patterns ends in [#(\d+)]. *)
Lemma number_after (r : regex) (ci : bool) (s : string) (c m : captures) :
  rmatch (Seq r (re_number ci)) s c accept = Some m ->
  exists pre a ds rest,
    s = pre ++ "#" ++ String a ds ++ rest
    /\ all_chars is_digit (String a ds) = true
    /\ capture 1 m = Some (String a ds).
Proof.
  rewrite rmatch_Seq. intros H. apply rmatch_reaches in H.
  destruct H as (pre & s' & c' & -> & H).
  apply re_number_inv in H. destruct H as (a & ds & rest & -> & Hd & ->).
  exists pre, a, ds, rest. auto.
Qed.

Lemma search_number (r : regex) (message : string) (m : captures) :
  (r = re_merge \/ r = re_closing \/ r = re_bare) ->
  search r message = Some m ->
  exists pre a ds rest,
    message = pre ++ "#" ++ String a ds ++ rest
    /\ all_chars is_digit (String a ds) = true
    /\ capture 1 m = Some (String a ds).
Proof.
  intros Hr H. apply search_inv in H. destruct H as (pre0 & suf & -> & H).
  assert (Hs : exists pre a ds rest,
             suf = pre ++ "#" ++ String a ds ++ rest
             /\ all_chars is_digit (String a ds) = true
             /\ capture 1 m = Some (String a ds)).
  { destruct Hr as [-> | [-> | ->]].
    - unfold re_merge in H. apply number_after in H. exact H.
    - unfold re_closing in H. rewrite rmatch_Seq in H.
      apply rmatch_reaches in H. destruct H as (pre1 & s1 & c1 & -> & H).
      apply number_after in H.
      destruct H as (pre2 & a & ds & rest & -> & Hd & Hc).
      exists (pre1 ++ pre2), a, ds, rest. rewrite append_assoc. auto.
    - unfold re_bare in H. apply re_number_inv in H.
      destruct H as (a & ds & rest & -> & Hd & ->).
      exists "", a, ds, rest. auto. }
  destruct Hs as (pre & a & ds & rest & -> & Hd & Hc).
  exists (pre0 ++ pre), a, ds, rest. rewrite append_assoc. auto.
Qed.

End NumberFacts.

(** X9.  A number [getPRNumberFromCommit] returns is a non-empty run of decimal
    digits that follows a [#] in the commit message; and it returns [null]
    exactly when the message has no [#] followed by a digit. *)
Theorem getPRNumberFromCommit_digits :
  forall (gitRoot commitHash : string) (sh : Shell) (message : string),
    sh ("git log -1 --format=%B " ++ commitHash) gitRoot = Some message ->
    (forall number,
        result (getPRNumberFromCommit gitRoot commitHash) sh = Return (Some number) ->
        number <> "" /\ all_chars is_digit number = true
        /\ exists pre post, message = pre ++ "#" ++ number ++ post)
    /\ (result (getPRNumberFromCommit gitRoot commitHash) sh = Return None
        <-> ~ exists pre a post,
              is_digit a = true /\ message = pre ++ "#" ++ String a post).
Proof.
  intros gitRoot commitHash sh message Hsh.
  assert (Hsome : forall number,
             result (getPRNumberFromCommit gitRoot commitHash) sh
             = Return (Some number) ->
             exists pre a ds rest,
               number = String a ds
               /\ message = pre ++ "#" ++ String a ds ++ rest
               /\ all_chars is_digit (String a ds) = true).
  { intros number.
    unfold result, getPRNumberFromCommit, try_catch, bind, execAsync, after.
    rewrite Hsh.
    destruct (search re_merge message) as [m|] eqn:E1;
      [|destruct (search re_closing message) as [m|] eqn:E2;
        [|destruct (search re_bare message) as [m|] eqn:E3]]; simpl.
    - apply search_number in E1; [|auto].
      destruct E1 as (pre & a & ds & rest & -> & Hd & ->).
      intros [= <-]. exists pre, a, ds, rest. auto.
    - apply search_number in E2; [|auto].
      destruct E2 as (pre & a & ds & rest & -> & Hd & ->).
      intros [= <-]. exists pre, a, ds, rest. auto.
    - apply search_number in E3; [|auto].
      destruct E3 as (pre & a & ds & rest & -> & Hd & ->).
      intros [= <-]. exists pre, a, ds, rest. auto.
    - discriminate. }
  split.
  - intros number H. destruct (Hsome number H) as (pre & a & ds & rest & -> & -> & Hd).
    split; [discriminate|]. split; [exact Hd|]. exists pre, rest. reflexivity.
  - split.
    + intros Hnone (pre & a & post & Ha & Hmsg).
      destruct (re_number_matches a post [] Ha) as [m0 Hm0].
      destruct (search_found re_bare _ m0 Hm0 pre) as [m1 Hm1].
      change (String "#" (String a post)) with ("#" ++ String a post) in Hm1.
      rewrite <- Hmsg in Hm1.
      assert (Hcap : forall r m,
                 r = re_merge \/ r = re_closing \/ r = re_bare ->
                 search r message = Some m -> capture 1 m <> None).
      { intros r m Hr Hm. apply search_number in Hm; [|exact Hr].
        destruct Hm as (? & ? & ? & ? & _ & _ & ->). discriminate. }
      revert Hnone.
      unfold result, getPRNumberFromCommit, try_catch, bind, execAsync, after.
      rewrite Hsh, Hm1.
      destruct (search re_merge message) as [m|] eqn:E1;
        [|destruct (search re_closing message) as [m|] eqn:E2]; simpl;
        intros [= Hc]; revert Hc.
      * apply (Hcap re_merge m); auto.
      * apply (Hcap re_closing m); auto.
      * apply (Hcap re_bare m1); auto.
    + intros Hno.
      destruct (try_catch_default
                  (commitMessage <- execAsync ("git log -1 --format=%B " ++ commitHash) gitRoot ;;
                   match search re_merge commitMessage with
                   | Some m => ret (capture 1 m)
                   | None =>
                       match search re_closing commitMessage with
                       | Some m => ret (capture 1 m)
                       | None =>
                           match search re_bare commitMessage with
                           | Some m => ret (capture 1 m)
                           | None => ret None
                           end
                       end
                   end) None sh) as [v Hv].
      change (result (getPRNumberFromCommit gitRoot commitHash) sh = Return v) in Hv.
      rewrite Hv. destruct v as [number|]; [exfalso | reflexivity].
      destruct (Hsome number Hv) as (pre & a & ds & rest & -> & -> & Hd).
      apply Hno. exists pre, a, (ds ++ rest). split; [|reflexivity].
      simpl in Hd. apply andb_prop in Hd. tauto.
Qed.

Lemma getPRNumberFromCommit_digits_witness :
  "128" <> ""
  /\ all_chars is_digit "128" = true
  /\ exists pre post, "Fix the parser (#128)" = pre ++ "#" ++ "128" ++ post.
Proof.
  apply (proj1 (getPRNumberFromCommit_digits "/repo" "0a1b2c3"
                  (commit_shell "Fix the parser (#128)")
                  "Fix the parser (#128)" (eq_refl _)) "128").
  vm_compute. reflexivity.
Defined.

(* ================================================================== *)
(** * Properties of the commands *)
(* ================================================================== *)

Section MonadFacts.

Context {A B : Type}.

Lemma result_bind (m : Git A) (f : A -> Git B) (sh : Shell) :
  result (bind m f) sh =
  match result m sh with
  | Return a => result (f a) sh
  | Throw e => Throw e
  end.
Proof.
  unfold result, bind, after. destruct (m sh) as [[a|e] log]; reflexivity.
Qed.

Lemma queries_bind (m : Git A) (f : A -> Git B) (sh : Shell) :
  queries (bind m f) sh =
  (queries m sh ++
   match result m sh with
   | Return a => queries (f a) sh
   | Throw _ => []
   end)%list.
Proof.
  unfold queries, result, bind, after.
  destruct (m sh) as [[a|e] log]; simpl.
  - now rewrite map_app.
  - now rewrite app_nil_r.
Qed.

Lemma result_try_catch (m : Git A) (h : exn -> Git A) (sh : Shell) :
  result (try_catch m h) sh =
  match result m sh with
  | Return a => Return a
  | Throw e => result (h e) sh
  end.
Proof.
  unfold result, try_catch, after. destruct (m sh) as [[a|e] log]; reflexivity.
Qed.

Lemma queries_try_catch (m : Git A) (h : exn -> Git A) (sh : Shell) :
  queries (try_catch m h) sh =
  (queries m sh ++
   match result m sh with
   | Return _ => []
   | Throw e => queries (h e) sh
   end)%list.
Proof.
  unfold queries, result, try_catch, after.
  destruct (m sh) as [[a|e] log]; simpl.
  - now rewrite app_nil_r.
  - now rewrite map_app.
Qed.

End MonadFacts.

Section CommandFacts.

Variables (host : Host) (sh : Shell).

Lemma tidy_error (message : string) : tidy sh (ret [showError message]).
Proof.
  intros shown [= <-]. left. eexists. reflexivity.
Qed.

Lemma tidy_bind {A} (m : Git A) (f : A -> Git (list ui)) :
  (forall a, tidy sh (f a)) -> tidy sh (bind m f).
Proof.
  intros Hf shown. rewrite result_bind.
  destruct (result m sh) as [a|e]; [apply Hf | discriminate].
Qed.

Lemma tidy_open (url text : string) :
  tidy sh (opened <- openInBrowser host url ;; ret [opened; InformationMessage text]).
Proof.
  intros shown. rewrite result_bind. unfold openInBrowser.
  destruct (open host url); [discriminate|].
  intros [= <-]. right. eauto.
Qed.

Lemma command_body_tidy (body : Git (list ui)) :
  tidy sh body ->
  exists shown,
    result (command_body host body) sh = Return shown
    /\ single_notification shown.
Proof.
  intros Hb. unfold command_body. rewrite result_try_catch.
  destruct (result body sh) as [shown|e] eqn:E.
  - exists shown. auto.
  - eexists. split; [reflexivity|]. left. eexists. reflexivity.
Qed.

Lemma openFileInGitHub_tidy (includeLineNumber : bool) :
  exists shown,
    result (openFileInGitHub host includeLineNumber) sh = Return shown
    /\ single_notification shown.
Proof.
  apply command_body_tidy.
  destruct (activeTextEditor host) as [editor|]; [|apply tidy_error].
  apply tidy_bind. intros gitRoot.
  destruct (present gitRoot); [|apply tidy_error].
  apply tidy_bind. intros repositoryUrl.
  destruct (present repositoryUrl); [|apply tidy_error].
  apply tidy_bind. intros gitRef. apply tidy_open.
Qed.

Lemma openRepositoryInGitHub_tidy :
  exists shown,
    result (openRepositoryInGitHub host) sh = Return shown
    /\ single_notification shown.
Proof.
  apply command_body_tidy.
  destruct (activeTextEditor host) as [editor|]; [|apply tidy_error].
  apply tidy_bind. intros gitRoot.
  destruct (present gitRoot); [|apply tidy_error].
  apply tidy_bind. intros repositoryUrl.
  destruct (present repositoryUrl); [|apply tidy_error].
  apply tidy_bind. intros gitRef. apply tidy_open.
Qed.

Lemma openPRForLastChangedLine_tidy :
  exists shown,
    result (openPRForLastChangedLine host) sh = Return shown
    /\ single_notification shown.
Proof.
  apply command_body_tidy.
  destruct (activeTextEditor host) as [editor|]; [|apply tidy_error].
  apply tidy_bind. intros gitRoot.
  destruct (present gitRoot); [|apply tidy_error].
  apply tidy_bind. intros repositoryUrl.
  destruct (present repositoryUrl); [|apply tidy_error].
  apply tidy_bind. intros commitHash.
  destruct (present commitHash); [|apply tidy_error].
  apply tidy_bind. intros prNumber.
  destruct (present prNumber); [|apply tidy_error].
  destruct (extractOrgAndRepo _); [|apply tidy_error].
  apply tidy_open.
Qed.

End CommandFacts.

(** X11.  Every command ends without an exception and with exactly one
    notification: either one error message, and then nothing was opened, or
    the URL it opened followed by one information message.  This holds
    whatever the editor, the settings, the shell and the browser do. *)
Theorem commands_notify_once :
  forall (host : Host) (sh : Shell),
    (forall includeLineNumber, exists shown,
        result (openFileInGitHub host includeLineNumber) sh = Return shown
        /\ single_notification shown)
    /\ (exists shown,
           result (openRepositoryInGitHub host) sh = Return shown
           /\ single_notification shown)
    /\ (exists shown,
           result (openPRForLastChangedLine host) sh = Return shown
           /\ single_notification shown).
Proof.
  intros host sh. split; [|split].
  - apply openFileInGitHub_tidy.
  - apply openRepositoryInGitHub_tidy.
  - apply openPRForLastChangedLine_tidy.
Qed.

Section HelperResults.

Variable sh : Shell.

Lemma result_getGitRoot (dirname : string -> string) (filePath : string) :
  result (getGitRoot dirname filePath) sh
  = Return (option_map trim (sh "git rev-parse --show-toplevel" (dirname filePath))).
Proof.
  unfold result, getGitRoot, try_catch, bind, execAsync, ret, after.
  destruct (sh _ _); reflexivity.
Qed.

Lemma queries_getGitRoot (dirname : string -> string) (filePath : string) :
  queries (getGitRoot dirname filePath) sh = ["git rev-parse --show-toplevel"].
Proof.
  unfold queries, getGitRoot, try_catch, bind, execAsync, ret, after.
  destruct (sh _ _); reflexivity.
Qed.

Lemma present_truthy (v : option string) :
  (forall s, v = Some s -> truthy s = true) -> present v = v.
Proof.
  intros H. destruct v as [s|]; [|reflexivity].
  simpl. now rewrite (H s eq_refl).
Qed.

Lemma getGitHubRepositoryUrl_present (gitRoot : string)
    (config : string -> option string) (v : option string) :
  result (getGitHubRepositoryUrl gitRoot config) sh = Return v -> present v = v.
Proof.
  unfold getGitHubRepositoryUrl. intros H. apply present_truthy. intros s ->.
  destruct (truthy_value (config "repositoryUrl")) eqn:E.
  - injection H as H. rewrite H in E. exact E.
  - now apply (fromRemotes_truthy gitRoot sh).
Qed.

Lemma getCommitHashFromBlame_present (relative : string -> string -> string)
    (gitRoot filePath : string) (lineNumber : N) (v : option string) :
  result (getCommitHashFromBlame relative gitRoot filePath lineNumber) sh = Return v ->
  present v = v.
Proof.
  intros H. apply present_truthy. intros h ->. revert H.
  unfold result, getCommitHashFromBlame, try_catch, bind, execAsync, after.
  cbv zeta. destruct (sh _ gitRoot) as [stdout|]; [|discriminate].
  destruct (split "010" stdout) as [|l ls]; [discriminate|].
  destruct (match_start re_hash l) as [m|] eqn:Hm; simpl; [|discriminate].
  apply match_hash_inv in Hm. destruct Hm as (h' & rest & _ & Hlen & _ & ->).
  simpl. intros [= <-]. destruct h'; [discriminate | reflexivity].
Qed.

Lemma getPRNumberFromCommit_present (gitRoot commitHash : string)
    (v : option string) :
  result (getPRNumberFromCommit gitRoot commitHash) sh = Return v -> present v = v.
Proof.
  intros H. apply present_truthy. intros n ->. revert H.
  assert (Hcap : forall r message m,
             r = re_merge \/ r = re_closing \/ r = re_bare ->
             search r message = Some m ->
             Return (A := option string) (capture 1 m) = Return (Some n) ->
             truthy n = true).
  { intros r message m Hr Hm. apply search_number in Hm; [|exact Hr].
    destruct Hm as (? & ? & ? & ? & _ & _ & ->). intros [= <-]. reflexivity. }
  unfold result, getPRNumberFromCommit, try_catch, bind, execAsync, after.
  destruct (sh _ gitRoot) as [message|]; [|discriminate].
  destruct (search re_merge message) as [m|] eqn:E1;
    [|destruct (search re_closing message) as [m|] eqn:E2;
      [|destruct (search re_bare message) as [m|] eqn:E3]]; simpl.
  - apply (Hcap re_merge message m); auto.
  - apply (Hcap re_closing message m); auto.
  - apply (Hcap re_bare message m); auto.
  - discriminate.
Qed.

End HelperResults.

(** X12.  Before anything else, each of the four commands needs an active editor,
    then a repository root, then a repository URL: without an editor it runs
    no git command at all, and without a root it runs only the query for the
    root; each time it shows the error of the step that failed. *)
Theorem commands_need_a_repository :
  forall (host : Host) (sh : Shell) (command : Git (list ui)),
    In command (commands host) ->
    (activeTextEditor host = None ->
     result command sh = Return [showError "No active editor found"]
     /\ queries command sh = [])
    /\ (forall editor,
           activeTextEditor host = Some editor ->
           git_root host editor sh = None ->
           result command sh = Return [showError "File is not in a git repository"]
           /\ queries command sh = ["git rev-parse --show-toplevel"])
    /\ (forall editor gitRoot,
           activeTextEditor host = Some editor ->
           git_root host editor sh = Some gitRoot ->
           result (getGitHubRepositoryUrl gitRoot (settings host)) sh = Return None ->
           result command sh = Return [showError no_repository_url]).
Proof.
  intros host sh command Hin. unfold git_root.
  assert (Hc : command = openFileInGitHub host false
               \/ command = openFileInGitHub host true
               \/ command = openRepositoryInGitHub host
               \/ command = openPRForLastChangedLine host).
  { simpl in Hin. intuition auto. }
  clear Hin.
  destruct Hc as [-> | [-> | [-> | ->]]];
    unfold openFileInGitHub, openRepositoryInGitHub, openPRForLastChangedLine,
      command_body;
    (split; [|split]).
  all: try (intros Hed; rewrite result_try_catch, queries_try_catch, Hed;
            split; reflexivity).
  all: try (intros editor Hed Hroot;
            rewrite result_try_catch, queries_try_catch, Hed;
            cbv zeta;
            rewrite result_bind, queries_bind, result_getGitRoot,
              queries_getGitRoot, Hroot;
            split; reflexivity).
  all: intros editor gitRoot Hed Hroot Hurl;
    rewrite result_try_catch, Hed; cbv zeta;
    rewrite result_bind, result_getGitRoot, Hroot;
    rewrite result_bind, Hurl; reflexivity.
Qed.

Lemma commands_need_a_repository_witness :
  result (openPRForLastChangedLine example_host) (fun _ _ => None)
  = Return [showError "File is not in a git repository"]
  /\ queries (openPRForLastChangedLine example_host) (fun _ _ => None)
     = ["git rev-parse --show-toplevel"].
Proof.
  apply (proj1 (proj2 (commands_need_a_repository example_host (fun _ _ => None)
                         (openPRForLastChangedLine example_host)
                         (or_intror (or_intror (or_intror (or_introl eq_refl))))))
           {| fsPath := "/work/widgets/src/index.ts"; line := 41 |}).
  - reflexivity.
  - reflexivity.
Defined.

Section LinkFacts.

Lemma constructGitHubUrl_anchor (repositoryUrl gitRef relativePath : string)
    (includeLineNumber : bool) (l : N) :
  constructGitHubUrl repositoryUrl gitRef relativePath
    (if includeLineNumber then Some (l + 1)%N else None)
  = (repositoryUrl ++ "/blob/" ++ gitRef ++ "/" ++ relativePath)
      ++ (if includeLineNumber then "#L" ++ Number_toString (l + 1) else "").
Proof.
  unfold constructGitHubUrl. destruct includeLineNumber.
  - destruct (N.eqb_spec (l + 1) 0); [lia | reflexivity].
  - now rewrite append_nil_r.
Qed.

Lemma getGitRef_throws (gitRoot : string) (flag : bool) (sh : Shell) (e : exn) :
  result (getGitRef gitRoot flag) sh = Throw e ->
  e = Error "Failed to get git reference".
Proof.
  unfold getGitRef. rewrite result_try_catch.
  match goal with |- match ?r with _ => _ end = _ -> _ => destruct r end.
  - discriminate.
  - unfold result, throw. simpl. intros [= <-]. reflexivity.
Qed.

Lemma result_open (host : Host) (url text : string) (sh : Shell) :
  result (opened <- openInBrowser host url ;; ret [opened; InformationMessage text]) sh
  = match open host url with
    | None => Return [Opened url; InformationMessage text]
    | Some message => Throw (Error message)
    end.
Proof.
  rewrite result_bind. unfold openInBrowser. destruct (open host url); reflexivity.
Qed.

End LinkFacts.

(** X13.  With an editor, a root, a repository URL and a reference,
    [openFileInGitHub] opens [<repositoryUrl>/blob/<ref>/<relativePath>];
    when the line is asked for, the link always ends in [#L<n>] where [n] is
    the cursor line plus one, also on the first line of the file.  If the
    browser fails, its message is the error shown; if the reference cannot
    be resolved, the error is "Failed to get git reference" and nothing is
    opened. *)
Theorem openFileInGitHub_link :
  forall (host : Host) (sh : Shell) (includeLineNumber : bool)
         (editor : Editor) (gitRoot repositoryUrl : string),
    activeTextEditor host = Some editor ->
    git_root host editor sh = Some gitRoot ->
    result (getGitHubRepositoryUrl gitRoot (settings host)) sh
    = Return (Some repositoryUrl) ->
    safe_integer (line editor + 1) ->
    let relativePath :=
      getRelativePath (path_relative host) (fsPath editor) gitRoot in
    (forall gitRef,
        result (getGitRef gitRoot (get_flag host "useCommitHash" false)) sh
        = Return gitRef ->
        let url :=
          (repositoryUrl ++ "/blob/" ++ gitRef ++ "/" ++ relativePath)
            ++ (if includeLineNumber
                then "#L" ++ Number_toString (line editor + 1) else "") in
        result (openFileInGitHub host includeLineNumber) sh
        = Return match open host url with
                 | None =>
                     [Opened url;
                      InformationMessage ("Opened in GitHub: " ++ relativePath)]
                 | Some message => [showError message]
                 end)
    /\ (forall e,
           result (getGitRef gitRoot (get_flag host "useCommitHash" false)) sh
           = Throw e ->
           result (openFileInGitHub host includeLineNumber) sh
           = Return [showError "Failed to get git reference"]).
Proof.
  intros host sh includeLineNumber editor gitRoot repositoryUrl Hed Hroot Hurl _
    relativePath.
  unfold git_root in Hroot.
  assert (E : result (openFileInGitHub host includeLineNumber) sh
              = match result (getGitRef gitRoot (get_flag host "useCommitHash" false)) sh with
                | Return gitRef =>
                    match result
                            (opened <- openInBrowser host
                               (constructGitHubUrl repositoryUrl gitRef relativePath
                                  (if includeLineNumber
                                   then Some (line editor + 1)%N else None)) ;;
                             ret [opened;
                                  InformationMessage
                                    ("Opened in GitHub: " ++ relativePath)]) sh with
                    | Return shown => Return shown
                    | Throw e => Return [showError (message_of host e)]
                    end
                | Throw e => Return [showError (message_of host e)]
                end).
  { unfold openFileInGitHub, command_body.
    rewrite result_try_catch, Hed. cbv zeta.
    rewrite result_bind, result_getGitRoot, Hroot.
    rewrite result_bind, Hurl, (getGitHubRepositoryUrl_present _ _ _ _ Hurl).
    rewrite result_bind.
    destruct (result (getGitRef gitRoot (get_flag host "useCommitHash" false)) sh);
      reflexivity. }
  split.
  - intros gitRef Href url. rewrite E, Href, result_open.
    rewrite constructGitHubUrl_anchor. fold url.
    destruct (open host url); reflexivity.
  - intros e He. rewrite E, He.
    rewrite (getGitRef_throws _ _ _ _ He). reflexivity.
Qed.

Lemma openFileInGitHub_link_witness :
  result (openFileInGitHub example_host true) widgets_shell
  = Return [Opened "https://github.com/acme/widgets/blob/main/src/index.ts#L42";
            InformationMessage "Opened in GitHub: src/index.ts"].
Proof.
  apply (proj1 (openFileInGitHub_link example_host widgets_shell true
                  {| fsPath := "/work/widgets/src/index.ts"; line := 41 |}
                  "/work/widgets" "https://github.com/acme/widgets"
                  (eq_refl _) (eq_refl _) (eq_refl _)
                  ltac:(apply N.ltb_lt; reflexivity)) "main").
  reflexivity.
Defined.

(** X14.  With an editor, a root, a repository URL and a reference,
    [openRepositoryInGitHub] opens [<repositoryUrl>/tree/<ref>]; if the
    reference cannot be resolved, the error is "Failed to get git reference"
    and nothing is opened. *)
Theorem openRepositoryInGitHub_link :
  forall (host : Host) (sh : Shell) (editor : Editor)
         (gitRoot repositoryUrl : string),
    activeTextEditor host = Some editor ->
    git_root host editor sh = Some gitRoot ->
    result (getGitHubRepositoryUrl gitRoot (settings host)) sh
    = Return (Some repositoryUrl) ->
    (forall gitRef,
        result (getGitRef gitRoot (get_flag host "useCommitHash" false)) sh
        = Return gitRef ->
        result (openRepositoryInGitHub host) sh
        = Return match open host (repositoryUrl ++ "/tree/" ++ gitRef) with
                 | None =>
                     [Opened (repositoryUrl ++ "/tree/" ++ gitRef);
                      InformationMessage "Opened repository in GitHub"]
                 | Some message => [showError message]
                 end)
    /\ (forall e,
           result (getGitRef gitRoot (get_flag host "useCommitHash" false)) sh
           = Throw e ->
           result (openRepositoryInGitHub host) sh
           = Return [showError "Failed to get git reference"]).
Proof.
  intros host sh editor gitRoot repositoryUrl Hed Hroot Hurl.
  unfold git_root in Hroot.
  assert (E : result (openRepositoryInGitHub host) sh
              = match result (getGitRef gitRoot (get_flag host "useCommitHash" false)) sh with
                | Return gitRef =>
                    match result
                            (opened <- openInBrowser host
                               (repositoryUrl ++ "/tree/" ++ gitRef) ;;
                             ret [opened;
                                  InformationMessage "Opened repository in GitHub"]) sh with
                    | Return shown => Return shown
                    | Throw e => Return [showError (message_of host e)]
                    end
                | Throw e => Return [showError (message_of host e)]
                end).
  { unfold openRepositoryInGitHub, command_body.
    rewrite result_try_catch, Hed. cbv zeta.
    rewrite result_bind, result_getGitRoot, Hroot.
    rewrite result_bind, Hurl, (getGitHubRepositoryUrl_present _ _ _ _ Hurl).
    rewrite result_bind.
    destruct (result (getGitRef gitRoot (get_flag host "useCommitHash" false)) sh);
      reflexivity. }
  split.
  - intros gitRef Href. rewrite E, Href, result_open.
    destruct (open host _); reflexivity.
  - intros e He. rewrite E, He.
    rewrite (getGitRef_throws _ _ _ _ He). reflexivity.
Qed.

Lemma openRepositoryInGitHub_link_witness :
  result (openRepositoryInGitHub example_host) no_reference_shell
  = Return [showError "Failed to get git reference"].
Proof.
  apply (proj2 (openRepositoryInGitHub_link example_host no_reference_shell
                  {| fsPath := "/work/widgets/src/index.ts"; line := 41 |}
                  "/work/widgets" "https://github.com/acme/widgets"
                  (eq_refl _) (eq_refl _) (eq_refl _))
           (Error "Failed to get git reference")).
  reflexivity.
Defined.

Section ChangeRequestFacts.

Lemma extractOrgAndRepo_of_remote (gitRoot : string)
    (config : string -> option string) (sh : Shell) (repositoryUrl : string) :
  truthy_value (config "repositoryUrl") = false ->
  result (getGitHubRepositoryUrl gitRoot config) sh = Return (Some repositoryUrl) ->
  exists o r,
    segment o = true /\ segment r = true
    /\ (repositoryUrl = "https://github.com/" ++ o ++ "/" ++ r
        \/ repositoryUrl = "https://github.com/" ++ o ++ "/" ++ r ++ ".git")
    /\ extractOrgAndRepo repositoryUrl = Some {| org := Some o; repo := Some r |}.
Proof.
  intros Hcfg H. rewrite (config_falsy _ _ Hcfg) in H.
  apply fromRemotes_some in H. destruct H as (name & Hn).
  unfold recognizedRemote in Hn.
  destruct (sh _ gitRoot) as [stdout|]; [|discriminate].
  apply normalize_shape in Hn. destruct Hn as (o & r & Ho & Hr & ->).
  destruct (search_canonical o r Ho Hr) as (r' & Hr' & Hs & Hrr).
  exists o, r'. split; [exact Ho|]. split; [exact Hr'|]. split.
  - unfold canonical_url. destruct Hrr as [-> | ->]; auto.
  - unfold extractOrgAndRepo. now rewrite Hs.
Qed.

End ChangeRequestFacts.

(** X15.  With an editor, a root and a repository URL, [openPRForLastChangedLine]
    asks for the commit of the line under the cursor (the cursor line plus
    one), then for the number in the message of that commit, and shows the
    error of the first step that gives nothing.  When the repository URL was
    found from the remotes, the step that reads the organisation and the
    repository from it cannot fail, and the command opens
    [https://github.com/<org>/<repo>/pull/<number>]. *)
Theorem openPRForLastChangedLine_link :
  forall (host : Host) (sh : Shell) (editor : Editor)
         (gitRoot repositoryUrl : string),
    activeTextEditor host = Some editor ->
    git_root host editor sh = Some gitRoot ->
    result (getGitHubRepositoryUrl gitRoot (settings host)) sh
    = Return (Some repositoryUrl) ->
    (result (getCommitHashFromBlame (path_relative host) gitRoot (fsPath editor)
               (line editor + 1)) sh = Return None ->
     result (openPRForLastChangedLine host) sh
     = Return [showError "Could not determine commit for this line"])
    /\ forall commitHash,
         result (getCommitHashFromBlame (path_relative host) gitRoot (fsPath editor)
                   (line editor + 1)) sh = Return (Some commitHash) ->
         (result (getPRNumberFromCommit gitRoot commitHash) sh = Return None ->
          result (openPRForLastChangedLine host) sh
          = Return [showError "Could not find PR number in commit message"])
         /\ forall prNumber,
              result (getPRNumberFromCommit gitRoot commitHash) sh
              = Return (Some prNumber) ->
              truthy_value (settings host "repositoryUrl") = false ->
              exists o r,
                segment o = true /\ segment r = true
                /\ (repositoryUrl = "https://github.com/" ++ o ++ "/" ++ r
                    \/ repositoryUrl = "https://github.com/" ++ o ++ "/" ++ r ++ ".git")
                /\ result (openPRForLastChangedLine host) sh
                   = Return
                       match open host ("https://github.com/" ++ o ++ "/" ++ r
                                          ++ "/pull/" ++ prNumber) with
                       | None =>
                           [Opened ("https://github.com/" ++ o ++ "/" ++ r
                                      ++ "/pull/" ++ prNumber);
                            InformationMessage
                              ("Opened PR #" ++ prNumber ++ " in GitHub")]
                       | Some message => [showError message]
                       end.
Proof.
  intros host sh editor gitRoot repositoryUrl Hed Hroot Hurl.
  unfold git_root in Hroot.
  assert (E : forall v,
             result (getCommitHashFromBlame (path_relative host) gitRoot
                       (fsPath editor) (line editor + 1)) sh = Return v ->
             result (openPRForLastChangedLine host) sh
             = match
                 result
                   match present v with
                   | None => ret [showError "Could not determine commit for this line"]
                   | Some commitHash =>
                       prNumber <- getPRNumberFromCommit gitRoot commitHash ;;
                       match present prNumber with
                       | None =>
                           ret [showError "Could not find PR number in commit message"]
                       | Some prNumber =>
                           match extractOrgAndRepo repositoryUrl with
                           | None => ret [showError "Invalid repository URL format"]
                           | Some orgRepo =>
                               opened <- openInBrowser host
                                 ("https://github.com/" ++ template (org orgRepo)
                                    ++ "/" ++ template (repo orgRepo)
                                    ++ "/pull/" ++ prNumber) ;;
                               ret [opened;
                                    InformationMessage
                                      ("Opened PR #" ++ prNumber ++ " in GitHub")]
                           end
                       end
                   end sh
               with
               | Return shown => Return shown
               | Throw e => Return [showError (message_of host e)]
               end).
  { intros v Hv. unfold openPRForLastChangedLine, command_body.
    rewrite result_try_catch, Hed. cbv zeta.
    rewrite result_bind, result_getGitRoot, Hroot.
    rewrite result_bind, Hurl, (getGitHubRepositoryUrl_present _ _ _ _ Hurl).
    rewrite result_bind, Hv. reflexivity. }
  split.
  - intros Hb. rewrite (E None Hb). reflexivity.
  - intros commitHash Hb. rewrite (E _ Hb).
    rewrite (getCommitHashFromBlame_present _ _ _ _ _ _ Hb). split.
    + intros Hn. rewrite result_bind, Hn. reflexivity.
    + intros prNumber Hn Hcfg.
      destruct (extractOrgAndRepo_of_remote _ _ _ _ Hcfg Hurl)
        as (o & r & Ho & Hr & Hform & Hx).
      exists o, r. split; [exact Ho|]. split; [exact Hr|]. split; [exact Hform|].
      rewrite result_bind, Hn, (getPRNumberFromCommit_present _ _ _ _ Hn), Hx.
      cbn [org repo template]. rewrite result_open.
      destruct (open host _); reflexivity.
Qed.

Lemma openPRForLastChangedLine_link_witness :
  exists o r,
    segment o = true /\ segment r = true
    /\ ("https://github.com/acme/widgets" = "https://github.com/" ++ o ++ "/" ++ r
        \/ "https://github.com/acme/widgets"
           = "https://github.com/" ++ o ++ "/" ++ r ++ ".git")
    /\ result (openPRForLastChangedLine example_host) widgets_shell
       = Return
           match open example_host ("https://github.com/" ++ o ++ "/" ++ r
                                      ++ "/pull/" ++ "128") with
           | None =>
               [Opened ("https://github.com/" ++ o ++ "/" ++ r ++ "/pull/" ++ "128");
                InformationMessage ("Opened PR #" ++ "128" ++ " in GitHub")]
           | Some message => [showError message]
           end.
Proof.
  apply (proj2 (proj2 (openPRForLastChangedLine_link example_host widgets_shell
                         {| fsPath := "/work/widgets/src/index.ts"; line := 41 |}
                         "/work/widgets" "https://github.com/acme/widgets"
                         (eq_refl _) (eq_refl _) (eq_refl _))
                  "0123456789abcdef0123456789abcdef01234567" (eq_refl _))
           "128").
  - reflexivity.
  - reflexivity.
Defined.

(** ** The commit given to git log *)

Section QueryFacts.

Variable sh : Shell.

















End QueryFacts.



(** ** The list of remotes *)

Section RemoteList.

Lemma trimEnd_space (b : ascii) :
  is_js_space b = true ->
  forall s, trimEnd (s ++ String b "") = trimEnd s.
Proof.
  intros Hb. induction s as [|a s IH]; cbn [append trimEnd].
  - now rewrite Hb.
  - now rewrite IH.
Qed.

Lemma trimEnd_keep (a : ascii) :
  is_js_space a = false ->
  forall s, trimEnd (s ++ String a "") = s ++ String a "".
Proof.
  intros Ha. induction s as [|x s IH]; cbn [append trimEnd].
  - now rewrite Ha.
  - rewrite IH. destruct s; reflexivity.
Qed.

Lemma remote_name_last (w : string) :
  remote_name w = true ->
  exists s a, w = s ++ String a "" /\ is_js_space a = false.
Proof.
  unfold remote_name. destruct w as [|x w]; [discriminate|]. cbn [truthy andb].
  revert x. induction w as [|y w IH]; intros x H.
  - exists "", x. simpl in H. rewrite andb_true_r in H.
    apply negb_true_iff in H. auto.
  - cbn [all_chars] in H. apply andb_prop in H. destruct H as [Hx H].
    destruct (IH y H) as (s & a & E & Ha).
    exists (String x s), a. cbn [append]. rewrite <- E. auto.
Qed.

Lemma join_last (names : list string) :
  names <> [] ->
  Forall (fun n => remote_name n = true) names ->
  exists s a, join newline names = s ++ String a "" /\ is_js_space a = false.
Proof.
  induction names as [|w names IH]; intros Hne H; [congruence|].
  inversion H as [|? ? Hw Hrest]; subst.
  destruct names as [|w' names'].
  - simpl. now apply remote_name_last.
  - destruct (IH ltac:(discriminate) Hrest) as (s & a & E & Ha).
    exists (w ++ newline ++ s), a. rewrite join_cons, E, !append_assoc. auto.
Qed.

Lemma join_first (names : list string) :
  names <> [] ->
  Forall (fun n => remote_name n = true) names ->
  exists a s, join newline names = String a s /\ is_js_space a = false.
Proof.
  intros Hne H. destruct names as [|w names]; [congruence|].
  inversion H as [|? ? Hw _]; subst.
  unfold remote_name in Hw. destruct w as [|a w]; [discriminate|].
  cbn [truthy andb all_chars] in Hw. apply andb_prop in Hw.
  destruct Hw as [Ha _]. apply negb_true_iff in Ha.
  destruct names as [|w' names']; [|rewrite join_cons]; cbn [join append]; eauto.
Qed.

Lemma no_newline (w : string) :
  remote_name w = true -> has_char "010" w = false.
Proof.
  unfold remote_name. intros H. apply andb_prop in H. destruct H as [_ H].
  induction w as [|a w IH]; [reflexivity|].
  cbn [all_chars] in H. apply andb_prop in H. destruct H as [Ha H].
  cbn [has_char]. rewrite (IH H), orb_false_r.
  destruct (Ascii.eqb_spec a "010") as [->|]; [discriminate | reflexivity].
Qed.

Lemma split_join_lines (names : list string) :
  names <> [] ->
  Forall (fun n => remote_name n = true) names ->
  split "010" (join newline names) = names.
Proof.
  induction names as [|w names IH]; intros Hne H; [congruence|].
  inversion H as [|? ? Hw Hrest]; subst.
  destruct names as [|w' names'].
  - apply split_plain. now apply no_newline.
  - rewrite join_cons. unfold newline at 1. cbn [append].
    rewrite (split_append _ _ _ (no_newline _ Hw)).
    f_equal. apply IH; [discriminate | exact Hrest].
Qed.

Lemma filter_names (names : list string) :
  Forall (fun n => remote_name n = true) names ->
  filter (fun name => 0 <? String.length name) names = names.
Proof.
  induction names as [|w names IH]; intros H; [reflexivity|].
  inversion H as [|? ? Hw Hrest]; subst. simpl.
  unfold remote_name in Hw. destruct w; [discriminate|].
  simpl. now rewrite (IH Hrest).
Qed.

Lemma names_of_output (names : list string) :
  Forall (fun n => remote_name n = true) names ->
  filter (fun name => 0 <? String.length name)
    (split "010" (trim (join newline names ++ newline)))
  = names.
Proof.
  intros H. destruct names as [|w names]; [reflexivity|].
  set (ns := w :: names) in *.
  assert (Hne : ns <> []) by discriminate.
  destruct (join_first ns Hne H) as (a & s & E1 & Ha).
  destruct (join_last ns Hne H) as (s' & b & E2 & Hb).
  assert (Ht : trim (join newline ns ++ newline) = join newline ns).
  { unfold trim. rewrite E1. cbn [append trimStart]. rewrite Ha.
    change (String a (s ++ newline)) with (String a s ++ newline).
    rewrite <- E1.
    change (join newline ns ++ newline) with (join newline ns ++ String "010" "").
    rewrite trimEnd_space by reflexivity.
    rewrite E2. now apply trimEnd_keep. }
  rewrite Ht, (split_join_lines ns Hne H). now apply filter_names.
Qed.

End RemoteList.

(** X10.  [getAllRemotes] reads the output of [git remote] line by line: when git
    prints the names one per line, it returns exactly these names in that
    order; from any output it returns only names that are not empty and
    have no line break; and when the command fails it returns no name. *)
Theorem getAllRemotes_lines :
  forall (gitRoot : string) (sh : Shell),
    (forall names,
        Forall (fun n => remote_name n = true) names ->
        sh "git remote" gitRoot = Some (join newline names ++ newline) ->
        result (getAllRemotes gitRoot) sh = Return names)
    /\ (forall names,
           result (getAllRemotes gitRoot) sh = Return names ->
           Forall (fun n => n <> "" /\ has_char "010" n = false) names)
    /\ (sh "git remote" gitRoot = None ->
        result (getAllRemotes gitRoot) sh = Return []).
Proof.
  intros gitRoot sh. unfold result. rewrite getAllRemotes_run. simpl fst.
  unfold remoteNames. split; [|split].
  - intros names H Hsh. rewrite Hsh. f_equal. now apply names_of_output.
  - intros names [= <-]. destruct (sh "git remote" gitRoot) as [stdout|];
      [|constructor].
    apply Forall_forall. intros n Hin. apply filter_In in Hin.
    destruct Hin as [Hin Hlen]. split.
    + intros ->. discriminate.
    + pose proof (split_no_sep "010" (trim stdout)) as Hs.
      rewrite Forall_forall in Hs. now apply Hs.
  - intros ->. reflexivity.
Qed.

Lemma getAllRemotes_lines_witness :
  result (getAllRemotes "/repo") example_shell = Return ["origin"; "upstream"].
Proof.
  apply (proj1 (getAllRemotes_lines "/repo" example_shell) ["origin"; "upstream"]).
  - repeat constructor.
  - reflexivity.
Defined.
